(** * cubes: cut/cell algebra and SQL aggregation browser

    A shallow embedding of [cubes/query/cells.py] and of the aggregation
    driver and result iterator of [cubes/sql/browser.py], with the
    properties of the cut codec, the cell algebra and the result stream
    stated over it.

    Python strings are modelled by [string] (sequences of ASCII characters),
    Python exceptions by the [Err] case of [outcome], mutable list objects by
    an explicit store, and the database by a log of executed statements. *)

From Stdlib Require Import Ascii String ZArith Lia.
From stdpp Require Import base option list strings gmap.

Local Open Scope string_scope.
Local Open Scope list_scope.

(** ** Python outcomes *)

Module Py.

(** The exceptions the modelled code can raise. [IllTyped] is not a Python
    exception: it marks a dictionary value outside the declared parameter
    type of the constructor that receives it, which the embedding (typed
    where Python is not) cannot represent. *)
Inductive exn :=
| ArgumentError (msg : string)
| NotImplementedError (msg : string)
| UnboundLocalError (var : string)
| NameError (var : string)
| AttributeError (attr : string)
| KeyError (key : string)
| IndexError
| ValueError (msg : string)
| TypeError (msg : string)
| ExternalError (msg : string)
| IllTyped (key : string).

Inductive outcome (A : Type) :=
| Ok (a : A)
| Err (e : exn).
Global Arguments Ok {A} a.
Global Arguments Err {A} e.

Definition bind {A B} (m : outcome A) (k : A → outcome B) : outcome B :=
  match m with
  | Ok a => k a
  | Err e => Err e
  end.

Definition is_ok {A} (m : outcome A) : bool :=
  match m with Ok _ => true | Err _ => false end.

(** Reading a local variable that was declared (annotated) but not yet
    assigned. *)
Definition read_local {A} (var : string) (v : option A) : outcome A :=
  match v with
  | Some a => Ok a
  | None => Err (UnboundLocalError var)
  end.

End Py.
Import Py.

Global Instance outcome_ret : MRet outcome := @Ok.
Global Instance outcome_bind : MBind outcome := λ A B k m, Py.bind m k.

(** ** Regular expressions of [cells.py] *)

Module Re.

Definition backslash : ascii := "\"%char.
Definition newline : ascii := Ascii.ascii_of_nat 10.

Definition char_in (cs : list ascii) (c : ascii) : bool :=
  existsb (Ascii.eqb c) cs.

(** [\w] on ASCII characters. *)
Definition is_word (c : ascii) : bool :=
  let n := Ascii.nat_of_ascii c in
  (((48 <=? n) && (n <=? 57)) || ((65 <=? n) && (n <=? 90))
   || ((97 <=? n) && (n <=? 122)) || (n =? 95))%nat.

(** The fragment of the regular-expression language the module uses where
    only the success of a match is observed. *)
Inductive regex :=
| Eps
| Chr (c : ascii)
| Dot                          (* [.]: any character but a newline *)
| NoneOf (cs : list ascii)     (* [[^...]] *)
| Seq (r1 r2 : regex)
| Alt (r1 r2 : regex)
| Star (r : regex)
| Opt (r : regex).

Fixpoint nullable (r : regex) : bool :=
  match r with
  | Eps => true
  | Chr _ | Dot | NoneOf _ => false
  | Seq r1 r2 => nullable r1 && nullable r2
  | Alt r1 r2 => nullable r1 || nullable r2
  | Star _ | Opt _ => true
  end.

(** [None] is the empty language. *)
Definition seq_opt (o : option regex) (r2 : regex) : option regex :=
  match o with Some r1 => Some (Seq r1 r2) | None => None end.

Definition alt_opt (o1 o2 : option regex) : option regex :=
  match o1, o2 with
  | Some r1, Some r2 => Some (Alt r1 r2)
  | Some r1, None => Some r1
  | None, o => o
  end.

Fixpoint deriv (c : ascii) (r : regex) : option regex :=
  match r with
  | Eps => None
  | Chr d => if Ascii.eqb c d then Some Eps else None
  | Dot => if Ascii.eqb c newline then None else Some Eps
  | NoneOf cs => if char_in cs c then None else Some Eps
  | Seq r1 r2 =>
      alt_opt (seq_opt (deriv c r1) r2)
              (if nullable r1 then deriv c r2 else None)
  | Alt r1 r2 => alt_opt (deriv c r1) (deriv c r2)
  | Star r1 => seq_opt (deriv c r1) (Star r1)
  | Opt r1 => deriv c r1
  end.

Fixpoint accepts (r : regex) (s : string) : bool :=
  match s with
  | EmptyString => nullable r
  | String c rest =>
      match deriv c r with
      | Some r' => accepts r' rest
      | None => false
      end
  end.

Fixpoint drop_last_newline (s : string) : option string :=
  match s with
  | EmptyString => None
  | String c EmptyString => if Ascii.eqb c newline then Some EmptyString else None
  | String c rest =>
      match drop_last_newline rest with
      | Some rest' => Some (String c rest')
      | None => None
      end
  end.

(** [re.compile("^" r "$").match(s)] seen as a truth value: [$] matches at
    the end of the string and also just before a final newline. *)
Definition anchored_match (r : regex) (s : string) : bool :=
  accepts r s
  || match drop_last_newline s with
     | Some s' => accepts r s'
     | None => false
     end.

(** [PATH_ELEMENT = r"(?:\\.|[^:;|-])*"] *)
Definition PATH_ELEMENT : regex :=
  Star (Alt (Seq (Chr backslash) Dot)
            (NoneOf [":"; ";"; "|"; "-"]%char)).

(** [RE_ELEMENT = RE_POINT = "^%s$" % PATH_ELEMENT] *)
Definition RE_ELEMENT (s : string) : bool := anchored_match PATH_ELEMENT s.
Definition RE_POINT (s : string) : bool := anchored_match PATH_ELEMENT s.

(** [RE_SET = "^(%s)(;(%s))*$"] *)
Definition RE_SET (s : string) : bool :=
  anchored_match
    (Seq PATH_ELEMENT (Star (Seq (Chr ";"%char) PATH_ELEMENT))) s.

(** [RE_RANGE = "^(%s)?-(%s)?$"] *)
Definition RE_RANGE (s : string) : bool :=
  anchored_match
    (Seq (Opt PATH_ELEMENT) (Seq (Chr "-"%char) (Opt PATH_ELEMENT))) s.

(** [re.compile(r'(?<!\\)C').split(s)] for a separator character [C]:
    the string is cut at every [C] whose preceding character (in [s]
    itself) is not a backslash. [prev] is the character before [s]. *)
Fixpoint split_from (sep : ascii) (prev : option ascii) (s : string)
  : list string :=
  match s with
  | EmptyString => [EmptyString]
  | String c rest =>
      if Ascii.eqb c sep
         && negb (match prev with
                  | Some p => Ascii.eqb p backslash
                  | None => false
                  end)
      then EmptyString :: split_from sep (Some c) rest
      else match split_from sep (Some c) rest with
           | piece :: more => String c piece :: more
           | [] => [String c EmptyString]
           end
  end.

Definition split (sep : ascii) (s : string) : list string :=
  split_from sep None s.

Definition CUT_STRING_SEPARATOR := split "|"%char.
Definition DIMENSION_STRING_SEPARATOR := split ":"%char.
Definition PATH_STRING_SEPARATOR := split ","%char.
Definition RANGE_CUT_SEPARATOR := split "-"%char.
Definition SET_CUT_SEPARATOR := split ";"%char.

(** The character class [[\\!|:;,-]] of [PATH_PART_ESCAPE_PATTERN] and
    [PATH_PART_UNESCAPE_PATTERN]. *)
Definition escapable (c : ascii) : bool :=
  char_in ["\"; "!"; "|"; ":"; ";"; ","; "-"]%char c.

(** [PATH_PART_ESCAPE_PATTERN.sub(r"\\\1", s)]: every escapable character
    gets a backslash in front. *)
Fixpoint escape_sub (s : string) : string :=
  match s with
  | EmptyString => EmptyString
  | String c rest =>
      if escapable c then String backslash (String c (escape_sub rest))
      else String c (escape_sub rest)
  end.

(** [PATH_PART_UNESCAPE_PATTERN.sub(r"\1", s)]: scanning from the left,
    every backslash followed by an escapable character is replaced by that
    character; matches do not overlap. *)
Fixpoint unescape_sub (s : string) : string :=
  match s with
  | EmptyString => EmptyString
  | String a tl =>
      match tl with
      | String c rest =>
          if Ascii.eqb a backslash && escapable c
          then String c (unescape_sub rest)
          else String a (unescape_sub tl)
      | EmptyString => String a EmptyString
      end
  end.

(** The maximal prefix of word characters, and what follows it. *)
Fixpoint span_word (s : string) : string * string :=
  match s with
  | EmptyString => (EmptyString, EmptyString)
  | String c rest =>
      if is_word c
      then let '(w, tl) := span_word rest in (String c w, tl)
      else (EmptyString, s)
  end.

(** [re.compile(r"(?P<invert>!)?(?P<dim>\w+)(@(?P<hier>\w+))?").match(s)]:
    the groups [invert], [dim], [hier] of the match at the start of [s],
    or [None] when there is none. All quantifiers are greedy and the
    pattern is not anchored at the end. *)
Definition word_and_hier (s : string) : option (string * option string) :=
  match span_word s with
  | (EmptyString, _) => None
  | (dim, String c tl) =>
      if Ascii.eqb c "@"%char
      then match span_word tl with
           | (EmptyString, _) => Some (dim, None)
           | (hier, _) => Some (dim, Some hier)
           end
      else Some (dim, None)
  | (dim, EmptyString) => Some (dim, None)
  end.

Definition dim_hier_pattern (s : string)
  : option (option string * string * option string) :=
  match s with
  | String c rest =>
      if Ascii.eqb c "!"%char
      then match word_and_hier rest with
           | Some (dim, hier) => Some (Some "!", dim, hier)
           | None => None
           end
      else match word_and_hier s with
           | Some (dim, hier) => Some (None, dim, hier)
           | None => None
           end
  | EmptyString => None
  end.

End Re.

(** ** The dimensional model, as far as [cells.py] reads it

    [cubes.metadata] is not part of the modelled sources. Its objects are
    records of the attributes the code reads; its methods are the fields of
    [Cells.Metadata], a parameter of the functions that call them. *)

Module Model.

Record Level := { level_name : string }.

Record Hierarchy := {
  hierarchy_name : string;
  levels : list Level
}.

Record Dimension := {
  dimension_name : string;
  role : option string;
  hierarchies : list Hierarchy
}.

Global Instance Level_eq_dec : EqDecision Level.
Proof. solve_decision. Defined.
Global Instance Hierarchy_eq_dec : EqDecision Hierarchy.
Proof. solve_decision. Defined.
Global Instance Dimension_eq_dec : EqDecision Dimension.
Proof. solve_decision. Defined.

(** A cube is only ever asked for its dimensions. *)
Record Cube := { cube_name : string }.

End Model.
Import Model.

(** ** [cubes/query/cells.py] *)

Module Cells.

Definition NULL_PATH_VALUE : string := "__null__".

Definition CUT_STRING_SEPARATOR_CHAR : string := "|".
Definition DIMENSION_STRING_SEPARATOR_CHAR : string := ":".
Definition PATH_STRING_SEPARATOR_CHAR : string := ",".
Definition RANGE_CUT_SEPARATOR_CHAR : string := "-".
Definition SET_CUT_SEPARATOR_CHAR : string := ";".

(** A path element is a string; [path_from_string] can also produce
    [None] (from the [NULL_PATH_VALUE] token). *)
Definition HierarchyPath := list (option string).

(** [str(s)] for a path element. *)
Definition py_str (s : option string) : string :=
  match s with
  | Some s => s
  | None => "None"
  end.

(** What a cut holds as its dimension: a name, or a metadata object. *)
Inductive dimension :=
| DimName (name : string)
| DimObj (d : Dimension).

Inductive hierarchy_ref :=
| HierName (name : string)
| HierObj (h : Hierarchy).

Global Instance dimension_eq_dec : EqDecision dimension.
Proof. solve_decision. Defined.
Global Instance hierarchy_ref_eq_dec : EqDecision hierarchy_ref.
Proof. solve_decision. Defined.

(** The three cut classes; the arguments are those of [__init__], in its
    order. *)
Inductive Cut :=
| PointCut (dim : dimension) (path : HierarchyPath)
           (hierarchy : option hierarchy_ref) (invert hidden : bool)
| RangeCut (dim : dimension) (from_path to_path : option HierarchyPath)
           (hierarchy : option hierarchy_ref) (invert hidden : bool)
| SetCut (dim : dimension) (paths : list HierarchyPath)
         (hierarchy : option hierarchy_ref) (invert hidden : bool).

Definition Cut_dimension (c : Cut) : dimension :=
  match c with
  | PointCut d _ _ _ _ | RangeCut d _ _ _ _ _ | SetCut d _ _ _ _ => d
  end.

Definition Cut_hierarchy (c : Cut) : option hierarchy_ref :=
  match c with
  | PointCut _ _ h _ _ | RangeCut _ _ _ h _ _ | SetCut _ _ h _ _ => h
  end.

Definition Cut_invert (c : Cut) : bool :=
  match c with
  | PointCut _ _ _ i _ | RangeCut _ _ _ _ i _ | SetCut _ _ _ i _ => i
  end.

Definition Cut_hidden (c : Cut) : bool :=
  match c with
  | PointCut _ _ _ _ h | RangeCut _ _ _ _ _ h | SetCut _ _ _ _ h => h
  end.

Definition isinstance_PointCut (c : Cut) : bool :=
  match c with PointCut _ _ _ _ _ => true | _ => false end.

(** Truth value of an optional list ([None] and [[]] are false). *)
Definition truthy_path {A} (p : option (list A)) : bool :=
  match p with
  | Some (_ :: _) => true
  | _ => false
  end.

Definition truthy_hierarchy (h : option hierarchy_ref) : bool :=
  match h with
  | Some (HierName n) => negb (String.eqb n "")
  | Some (HierObj _) => true
  | None => false
  end.

(** [max(l)], which raises on an empty list. *)
Definition py_max (l : list nat) : outcome nat :=
  match l with
  | [] => Err (ValueError "max() arg is an empty sequence")
  | x :: l' => Ok (foldl Nat.max x l')
  end.

(** [level_depth]: [RangeCut.level_depth] falls off its last [elif] and
    returns [None] when both paths are empty or missing. *)
Definition level_depth (c : Cut) : outcome (option nat) :=
  match c with
  | PointCut _ path _ _ _ => Ok (Some (length path))
  | RangeCut _ from_path to_path _ _ _ =>
      if truthy_path from_path && negb (truthy_path to_path)
      then Ok (Some (length (default [] from_path)))
      else if negb (truthy_path from_path) && truthy_path to_path
      then Ok (Some (length (default [] to_path)))
      else if truthy_path from_path && truthy_path to_path
      then Ok (Some (Nat.max (length (default [] from_path))
                             (length (default [] to_path))))
      else Ok None
  | SetCut _ paths _ _ _ =>
      n ← py_max (map (λ path : HierarchyPath, length path) paths); Ok (Some n)
  end.

(** *** Path and dimension encoding *)

Definition _path_part_escape (path_part : option string) : string :=
  match path_part with
  | None => NULL_PATH_VALUE
  | Some s => Re.escape_sub s
  end.

Definition _path_part_unescape (path_part : string) : option string :=
  if String.eqb path_part NULL_PATH_VALUE then None
  else Some (Re.unescape_sub path_part).

(** [string_from_path]; the warning it may log is
    [string_from_path_warns]. *)
Definition string_from_path (path : option HierarchyPath) : string :=
  if negb (truthy_path path) then ""
  else
    let path := map (λ s, _path_part_escape (Some (py_str s)))
                    (default [] path) in
    String.concat PATH_STRING_SEPARATOR_CHAR path.

Definition string_from_path_warns (path : option HierarchyPath) : bool :=
  truthy_path path
  && negb (forallb Re.RE_ELEMENT
             (map (λ s, _path_part_escape (Some (py_str s)))
                  (default [] path))).

(** [_path_part_escape] applied to a cut's dimension or hierarchy: the
    regular-expression substitution needs a string. *)
Definition escape_dimension (d : dimension) : outcome string :=
  match d with
  | DimName n => Ok (_path_part_escape (Some n))
  | DimObj _ => Err (TypeError "expected string or bytes-like object")
  end.

Definition escape_hierarchy (h : hierarchy_ref) : outcome string :=
  match h with
  | HierName n => Ok (_path_part_escape (Some n))
  | HierObj _ => Err (TypeError "expected string or bytes-like object")
  end.

Definition string_from_hierarchy (d : dimension)
    (hierarchy : option hierarchy_ref) : outcome string :=
  if truthy_hierarchy hierarchy then
    match hierarchy with
    | Some h =>
        ds ← escape_dimension d;
        hs ← escape_hierarchy h;
        Ok (ds +:+ "@" +:+ hs)
    | None => escape_dimension d
    end
  else escape_dimension d.

Definition path_from_string (s : string) : HierarchyPath :=
  if String.eqb s "" then []
  else map _path_part_unescape (Re.PATH_STRING_SEPARATOR s).

Definition invert_prefix (invert : bool) : string :=
  if invert then "!" else "".

(** [__str__] of the three cut classes. *)
Definition Cut_str (c : Cut) : outcome string :=
  match c with
  | PointCut d path hierarchy invert _ =>
      let path_str := string_from_path (Some path) in
      dim_str ← string_from_hierarchy d hierarchy;
      Ok (invert_prefix invert +:+ dim_str
          +:+ DIMENSION_STRING_SEPARATOR_CHAR +:+ path_str)
  | RangeCut d from_path to_path hierarchy invert _ =>
      let from_path_str :=
        if truthy_path from_path then string_from_path from_path
        else string_from_path (Some []) in
      let to_path_str :=
        if truthy_path to_path then string_from_path to_path
        else string_from_path (Some []) in
      let range_str := from_path_str +:+ RANGE_CUT_SEPARATOR_CHAR +:+ to_path_str in
      dim_str ← string_from_hierarchy d hierarchy;
      Ok (invert_prefix invert +:+ dim_str
          +:+ DIMENSION_STRING_SEPARATOR_CHAR +:+ range_str)
  | SetCut d paths hierarchy invert _ =>
      let path_strings := map (λ path, string_from_path (Some path)) paths in
      let set_string := String.concat SET_CUT_SEPARATOR_CHAR path_strings in
      dim_str ← string_from_hierarchy d hierarchy;
      Ok (invert_prefix invert +:+ dim_str
          +:+ DIMENSION_STRING_SEPARATOR_CHAR +:+ set_string)
  end.

(** [__eq__] of the three cut classes: same class, then dimension, path
    data and invert; hierarchy and hidden are not compared. *)
Definition Cut_eq (self other : Cut) : bool :=
  match self, other with
  | PointCut d p _ i _, PointCut d' p' _ i' _ =>
      if negb (bool_decide (d = d')) then false
      else if negb (bool_decide (p = p')) then false
      else if negb (bool_decide (i = i')) then false
      else true
  | RangeCut d f t _ i _, RangeCut d' f' t' _ i' _ =>
      if negb (bool_decide (d = d')) then false
      else if negb (bool_decide (f = f')) then false
      else if negb (bool_decide (t = t')) then false
      else if negb (bool_decide (i = i')) then false
      else true
  | SetCut d ps _ i _, SetCut d' ps' _ i' _ =>
      if negb (bool_decide (d = d')) then false
      else if negb (bool_decide (ps = ps')) then false
      else if negb (bool_decide (i = i')) then false
      else true
  | _, _ => false
  end.

(** [cut in cuts] on a list: some item is [cut] itself or equals it;
    [Cut_eq] holds of identical objects, so identity adds nothing. *)
Definition Cut_in (cut : Cut) (cuts : list Cut) : bool :=
  existsb (λ item, Cut_eq item cut) cuts.

(** *** External methods

    The methods of the dimensional model that [cells.py] calls. *)
Record Metadata := {
  (** [dimension.hierarchy(obj)] *)
  Dimension_hierarchy : Dimension → option hierarchy_ref → outcome Hierarchy;
  (** [hierarchy.rollup(path, level)] *)
  Hierarchy_rollup : Hierarchy → HierarchyPath → option Level → outcome HierarchyPath;
  (** [hierarchy[level_name]] *)
  Hierarchy_getitem : Hierarchy → string → outcome Level;
  (** [cube.dimension(obj)] *)
  Cube_dimension : Cube → dimension → outcome Dimension
}.

(** [dim.hierarchy(obj)] where [dim] is what a cut holds: a plain name has
    no such method. *)
Definition dim_hierarchy (md : Metadata) (dim : dimension)
    (obj : option hierarchy_ref) : outcome Hierarchy :=
  match dim with
  | DimObj d => Dimension_hierarchy md d obj
  | DimName _ => Err (AttributeError "hierarchy")
  end.

(** [cut.path]: only point cuts have the attribute. *)
Definition Cut_path (c : Cut) : outcome HierarchyPath :=
  match c with
  | PointCut _ path _ _ _ => Ok path
  | _ => Err (AttributeError "path")
  end.

(** *** Cell *)

(** A cell, as the value of its [cuts] list; [Cell(cuts=l)] is
    [{| cuts := l |}]. *)
Record Cell := { cuts : list Cut }.

(** [l.index(x)], with [None] for the [ValueError]. *)
Definition py_index `{EqDecision A} (x : A) (l : list A) : option nat :=
  fst <$> list_find (λ y, y = x) l.

Definition cut_for_dimension (self : Cell) (dim : dimension) : option Cut :=
  snd <$> list_find (λ cut, Cut_dimension cut = dim) (cuts self).

(** The position and the value of the first point cut for [dim]. *)
Definition find_point_cut (self : Cell) (dim : dimension) : option (nat * Cut) :=
  list_find (λ cut, isinstance_PointCut cut = true ∧ Cut_dimension cut = dim)
            (cuts self).

Definition point_cut_for_dimension (self : Cell) (dim : dimension)
  : option Cut :=
  snd <$> find_point_cut self dim.

(** [[cut for cut in self.cuts if cut is not dim_cut]], where [dim_cut] is
    the object found at position [i]; the entries of the list are taken to
    be distinct objects. *)
Definition cuts_other_than (i : nat) (l : list Cut) : list Cut :=
  take i l ++ drop (S i) l.

(** [copy.copy(self)]: a new cell object with the same [cuts]. *)
Definition copy_copy (self : Cell) : Cell := {| cuts := cuts self |}.

Definition rollup_dim (md : Metadata) (self : Cell) (dim : dimension)
    (level : option Level) (hierarchy : option hierarchy_ref) : outcome Cell :=
  match find_point_cut self dim with
  | None => Ok (copy_copy self)
  | Some (i, dim_cut) =>
      let cuts_ := cuts_other_than i (cuts self) in
      hier ← dim_hierarchy md dim hierarchy;
      path ← Cut_path dim_cut;
      rollup_path ← Hierarchy_rollup md hier path level;
      if truthy_path (Some rollup_path)
      then
        let new_cut := PointCut dim rollup_path hierarchy false false in
        Ok {| cuts := cuts_ ++ [new_cut] |}
      else Ok {| cuts := cuts_ |}
  end.

(** The argument of [rollup]: a dimension name, a list (or tuple) of
    names, or a dictionary from names to level names. *)
Inductive rollup_arg :=
| RollupStr (s : string)
| RollupList (l : list string)
| RollupDict (d : list (string * string)).

(** An [OrderedDict] keyed by dimension. *)
Fixpoint odict_set (k : dimension) (v : Cut) (d : list (dimension * Cut))
  : list (dimension * Cut) :=
  match d with
  | [] => [(k, v)]
  | (k', v') :: d' =>
      if bool_decide (k' = k) then (k', v) :: d'
      else (k', v') :: odict_set k v d'
  end.

Definition odict_get (k : dimension) (d : list (dimension * Cut)) : option Cut :=
  (λ r, r.2.2) <$> list_find (λ kv : dimension * Cut, kv.1 = k) d.

Definition cuts_by_dimension (self : Cell) : list (dimension * Cut) :=
  foldl (λ d cut, odict_set (Cut_dimension cut) cut d) [] (cuts self).

(** The body of the loop over a list of dimension names. *)
Definition rollup_list_step (md : Metadata) (cuts_ : list (dimension * Cut))
    (new_cuts : list Cut) (dim_name : string) : outcome (list Cut) :=
  match odict_get (DimName dim_name) cuts_ with
  | None => Ok new_cuts
  | Some cut =>
      if isinstance_PointCut cut
      then Err (NotImplementedError
                  "Only PointCuts are currently supported for roll-up")
      else
        let dim := Cut_dimension cut in
        hier ← dim_hierarchy md dim None;
        path ← Cut_path cut;
        rollup_path ← Hierarchy_rollup md hier path None;
        let cut := PointCut (Cut_dimension cut) rollup_path None false false in
        Ok (new_cuts ++ [cut])
  end.

(** The body of the loop over the items of a dictionary. *)
Definition rollup_dict_step (md : Metadata) (cuts_ : list (dimension * Cut))
    (new_cuts : list Cut) (item : string * string) : outcome (list Cut) :=
  let '(dim_name, level_name) := item in
  match odict_get (DimName dim_name) cuts_ with
  | None => Err (KeyError dim_name)
  | Some cut =>
      if negb (isinstance_PointCut cut)
      then Err (NotImplementedError
                  "Only PointCuts are currently supported for roll-up")
      else
        let dim := Cut_dimension cut in
        hier ← dim_hierarchy md dim None;
        path ← Cut_path cut;
        level ← Hierarchy_getitem md hier level_name;
        rollup_path ← Hierarchy_rollup md hier path (Some level);
        let cut := PointCut (Cut_dimension cut) rollup_path None false false in
        Ok (new_cuts ++ [cut])
  end.

Fixpoint for_each {A B} (f : B → A → outcome B) (acc : B) (l : list A)
  : outcome B :=
  match l with
  | [] => Ok acc
  | x :: l' => acc' ← f acc x; for_each f acc' l'
  end.

(** [isinstance(self.drilldown, dict)]: [self.drilldown] is the bound
    method [Cell.drilldown], never a dictionary. *)
Definition self_drilldown_is_dict : bool := false.

(** [rollup]: a string is handled as a list of one string. *)
Definition rollup (md : Metadata) (self : Cell) (arg : rollup_arg) : outcome Cell :=
  let cuts_ := cuts_by_dimension self in
  new_cuts ←
    match arg with
    | RollupStr s => for_each (rollup_list_step md cuts_) [] [s]
    | RollupList l => for_each (rollup_list_step md cuts_) [] l
    | RollupDict d =>
        if self_drilldown_is_dict
        then for_each (rollup_dict_step md cuts_) [] d
        else Err (ArgumentError "Rollup is of unknown type")
    end;
  Ok {| cuts := new_cuts |}.

(** [deepest_levels]: the local [item] is assigned in two of the three
    branches of the loop body and appended in all of them, so it keeps its
    value from one iteration to the next; before its first assignment it
    is unbound. *)
Definition level_item : Type := dimension * Hierarchy * option Level.

Definition deepest_levels_step (md : Metadata) (include_empty : bool)
    (st : option level_item * list level_item) (cut : Cut)
  : outcome (option level_item * list level_item) :=
  let '(item, levels_) := st in
  depth ← level_depth cut;
  let dim := Cut_dimension cut in
  hier ← dim_hierarchy md dim (Cut_hierarchy cut);
  item ←
    match depth with
    | Some (S n) =>
        match levels hier !! n with
        | Some level => Ok (Some (dim, hier, Some level))
        | None => Err IndexError
        end
    | _ => if include_empty then Ok (Some (dim, hier, None)) else Ok item
    end;
  it ← read_local "item" item;
  Ok (item, levels_ ++ [it]).

Definition deepest_levels (md : Metadata) (self : Cell) (include_empty : bool)
  : outcome (list level_item) :=
  st ← for_each (deepest_levels_step md include_empty) (None, []) (cuts self);
  Ok st.2.

Definition public_cell (self : Cell) : Cell :=
  {| cuts := filter (λ cut, Cut_hidden cut = false) (cuts self) |}.

(** [Cell.__eq__] *)
Definition Cell_eq (self other : Cell) : bool :=
  if negb (length (cuts self) =? length (cuts other))%nat then false
  else forallb (λ cut, Cut_in cut (cuts other)) (cuts self).

(** *** Decoding cut strings *)

(** A member converter takes the dimension, the hierarchy and a path. *)
Definition MemberConverter : Type :=
  Dimension → Hierarchy → HierarchyPath → outcome HierarchyPath.

(** [a or b] on optional converters. *)
Definition py_or {A} (a b : option A) : option A :=
  match a with Some _ => a | None => b end.

(** [converter(dimension, hierarchy, path)] when a converter is set; the
    locals [dimension] and [hierarchy] are read to pass them. *)
Definition apply_converter (converter : option MemberConverter)
    (dimension_ : option Dimension) (hierarchy_ : option Hierarchy)
    (path : HierarchyPath) : outcome HierarchyPath :=
  match converter with
  | Some conv =>
      d ← read_local "dimension" dimension_;
      h ← read_local "hierarchy" hierarchy_;
      conv d h path
  | None => Ok path
  end.

(** [cut_from_string]. The locals [dimension] and [hierarchy] are declared
    at the top of the function and assigned only inside [if cube:], under
    [if role is not None:]. *)
Definition cut_from_string (md : Metadata) (string_ : string)
    (cube : option Cube)
    (member_converters role_member_converters
       : option (gmap string MemberConverter))
  : outcome Cut :=
  let dimension_ : option Dimension := None in
  let hierarchy_ : option Hierarchy := None in
  let member_converters := default ∅ member_converters in
  let role_member_converters := default ∅ role_member_converters in
  '(dimspec, string_) ←
    match Re.DIMENSION_STRING_SEPARATOR string_ with
    | [dimspec; rest] => Ok (dimspec, rest)
    | _ => Err (ArgumentError "Wrong dimension cut string")
    end;
  '(invert, dim_name, hier_name) ←
    match Re.dim_hier_pattern dimspec with
    | Some (inv, dim, hier) => Ok (bool_decide (is_Some inv), dim, hier)
    | None => Err (ArgumentError "Dimension spec does not match pattern 'dimension@hierarchy'")
    end;
  let converter := member_converters !! dim_name in
  '(dimension_, hierarchy_, converter) ←
    match cube with
    | Some cube =>
        arg ← read_local "dimension" dimension_;
        d ← Cube_dimension md cube (DimObj arg);
        match role d with
        | Some role_ =>
            let converter := py_or converter (role_member_converters !! role_) in
            dimension' ← Cube_dimension md cube (DimName dim_name);
            hierarchy' ← Dimension_hierarchy md dimension' (HierName <$> hier_name);
            Ok (Some dimension', Some hierarchy', converter)
        | None => Ok (dimension_, hierarchy_, converter)
        end
    | None => Ok (dimension_, hierarchy_, converter)
    end;
  if String.eqb string_ "" then
    d ← read_local "dimension" dimension_;
    h ← read_local "hierarchy" hierarchy_;
    Ok (PointCut (DimObj d) [Some ""] (Some (HierObj h)) invert false)
  else if Re.RE_POINT string_ then
    let path := path_from_string string_ in
    path ← apply_converter converter dimension_ hierarchy_ path;
    d ← read_local "dimension" dimension_;
    h ← read_local "hierarchy" hierarchy_;
    Ok (PointCut (DimObj d) path (Some (HierObj h)) invert false)
  else if Re.RE_SET string_ then
    let paths := map path_from_string (Re.SET_CUT_SEPARATOR string_) in
    paths ←
      match converter with
      | Some _ => mapM (apply_converter converter dimension_ hierarchy_) paths
      | None => Ok paths
      end;
    d ← read_local "dimension" dimension_;
    h ← read_local "hierarchy" hierarchy_;
    Ok (SetCut (DimObj d) paths (Some (HierObj h)) invert false)
  else if Re.RE_RANGE string_ then
    '(from_path, to_path) ←
      match map path_from_string (Re.RANGE_CUT_SEPARATOR string_) with
      | [from_path; to_path] => Ok (from_path, to_path)
      | _ => Err (ValueError "wrong number of values to unpack")
      end;
    from_path ← apply_converter converter dimension_ hierarchy_ from_path;
    to_path ← apply_converter converter dimension_ hierarchy_ to_path;
    d ← read_local "dimension" dimension_;
    h ← read_local "hierarchy" hierarchy_;
    Ok (RangeCut (DimObj d) (Some from_path) (Some to_path)
                 (Some (HierObj h)) invert false)
  else Err (ArgumentError "Unknown cut format").

Definition cuts_from_string (md : Metadata) (cube : option Cube)
    (string_ : string)
    (member_converters role_member_converters
       : option (gmap string MemberConverter))
  : outcome (list Cut) :=
  if String.eqb string_ "" then Ok []
  else
    mapM (λ dim_cut,
            cut_from_string md dim_cut cube
              member_converters role_member_converters)
         (Re.CUT_STRING_SEPARATOR string_).

Definition string_from_cuts (cuts_ : list Cut) : outcome string :=
  strings ← mapM Cut_str cuts_;
  Ok (String.concat CUT_STRING_SEPARATOR_CHAR strings).

(** *** Cut dictionaries *)

(** The values found in a cut dictionary. *)
Inductive pyval :=
| VNone
| VBool (b : bool)
| VInt (n : Z)
| VStr (s : string)
| VPath (p : HierarchyPath)
| VPaths (ps : list HierarchyPath)
| VDimension (d : Dimension)
| VHierarchy (h : Hierarchy).

Definition of_dimension (d : dimension) : pyval :=
  match d with DimName n => VStr n | DimObj o => VDimension o end.

Definition of_hierarchy (h : option hierarchy_ref) : pyval :=
  match h with
  | Some (HierName n) => VStr n
  | Some (HierObj o) => VHierarchy o
  | None => VNone
  end.

Definition of_opt_path (p : option HierarchyPath) : pyval :=
  match p with Some p => VPath p | None => VNone end.

Definition of_depth (n : option nat) : pyval :=
  match n with Some n => VInt (Z.of_nat n) | None => VNone end.

(** [Cut.to_dict], the part shared by the three classes. *)
Definition Cut_to_dict_base (c : Cut) : outcome (gmap string pyval) :=
  let d : gmap string pyval := ∅ in
  let d := <["type" := VNone]> d in
  let d := <["dimension" := of_dimension (Cut_dimension c)]> d in
  let d := <["hierarchy" := if truthy_hierarchy (Cut_hierarchy c)
                            then of_hierarchy (Cut_hierarchy c)
                            else VNone]> d in
  depth ← level_depth c;
  let d := <["level_depth" := of_depth depth]> d in
  let d := <["invert" := VBool (Cut_invert c)]> d in
  let d := <["hidden" := VBool (Cut_hidden c)]> d in
  Ok d.

Definition to_dict (c : Cut) : outcome (gmap string pyval) :=
  d ← Cut_to_dict_base c;
  match c with
  | PointCut _ path _ _ _ =>
      let d := <["type" := VStr "point"]> d in
      Ok (<["path" := VPath path]> d)
  | RangeCut _ from_path to_path _ _ _ =>
      let d := <["type" := VStr "range"]> d in
      let d := <["from" := of_opt_path from_path]> d in
      Ok (<["to" := of_opt_path to_path]> d)
  | SetCut _ paths _ _ _ =>
      let d := <["type" := VStr "set"]> d in
      Ok (<["paths" := VPaths paths]> d)
  end.

(** [str.lower] on ASCII. *)
Definition lower_char (c : ascii) : ascii :=
  let n := Ascii.nat_of_ascii c in
  if ((65 <=? n) && (n <=? 90))%nat then Ascii.ascii_of_nat (n + 32) else c.

Fixpoint py_lower (s : string) : string :=
  match s with
  | EmptyString => EmptyString
  | String c rest => String (lower_char c) (py_lower rest)
  end.

(** Reading the constructor arguments out of dictionary values; a value
    of another type than the parameter is [IllTyped]. *)
Definition as_dimension (v : option pyval) : outcome dimension :=
  match v with
  | Some (VStr n) => Ok (DimName n)
  | Some (VDimension d) => Ok (DimObj d)
  | _ => Err (IllTyped "dimension")
  end.

Definition as_path (key : string) (v : option pyval) : outcome HierarchyPath :=
  match v with
  | Some (VPath p) => Ok p
  | _ => Err (IllTyped key)
  end.

Definition as_opt_path (key : string) (v : option pyval)
  : outcome (option HierarchyPath) :=
  match v with
  | Some (VPath p) => Ok (Some p)
  | Some VNone | None => Ok None
  | _ => Err (IllTyped key)
  end.

Definition as_paths (v : option pyval) : outcome (list HierarchyPath) :=
  match v with
  | Some (VPaths ps) => Ok ps
  | _ => Err (IllTyped "paths")
  end.

Definition as_hierarchy (v : option pyval) : outcome (option hierarchy_ref) :=
  match v with
  | Some (VStr n) => Ok (Some (HierName n))
  | Some (VHierarchy h) => Ok (Some (HierObj h))
  | Some VNone | None => Ok None
  | _ => Err (IllTyped "hierarchy")
  end.

(** [desc.get('invert', False)] *)
Definition as_invert (v : option pyval) : outcome bool :=
  match v with
  | Some (VBool b) => Ok b
  | None => Ok false
  | _ => Err (IllTyped "invert")
  end.

Definition truthy_pyval (v : option pyval) : bool :=
  match v with
  | None | Some VNone => false
  | Some (VBool b) => b
  | Some (VInt n) => negb (n =? 0)%Z
  | Some (VStr s) => negb (String.eqb s "")
  | Some (VPath p) => truthy_path (Some p)
  | Some (VPaths ps) => truthy_path (Some ps)
  | Some (VDimension _) | Some (VHierarchy _) => true
  end.

(** [cut_from_dict]. The constructors are called with four arguments, so
    [hidden] takes its default. *)
Definition cut_from_dict (md : Metadata) (desc : gmap string pyval)
    (cube : option Cube) : outcome Cut :=
  cut_type ←
    match desc !! "type" with
    | None => Err (KeyError "type")
    | Some (VStr s) => Ok (py_lower s)
    | Some _ => Err (AttributeError "lower")
    end;
  let dim := desc !! "dimension" in
  dim ←
    match cube with
    | Some cube =>
        if truthy_pyval dim
        then arg ← as_dimension dim;
             d ← Cube_dimension md cube arg;
             Ok (Some (VDimension d))
        else Ok dim
    | None => Ok dim
    end;
  if String.eqb cut_type "point" then
    dim ← as_dimension dim;
    path ← as_path "path" (desc !! "path");
    hierarchy ← as_hierarchy (desc !! "hierarchy");
    invert ← as_invert (desc !! "invert");
    Ok (PointCut dim path hierarchy invert false)
  else if String.eqb cut_type "set" then
    dim ← as_dimension dim;
    paths ← as_paths (desc !! "paths");
    hierarchy ← as_hierarchy (desc !! "hierarchy");
    invert ← as_invert (desc !! "invert");
    Ok (SetCut dim paths hierarchy invert false)
  else if String.eqb cut_type "range" then
    dim ← as_dimension dim;
    from_path ← as_opt_path "from" (desc !! "from");
    to_path ← as_opt_path "to" (desc !! "to");
    hierarchy ← as_hierarchy (desc !! "hierarchy");
    invert ← as_invert (desc !! "invert");
    Ok (RangeCut dim from_path to_path hierarchy invert false)
  else Err (ArgumentError "Unknown cut type").

(** *** Cells as objects

    [slice] copies and updates Python lists. Here the lists are objects in
    a heap, a cell object refers to its [cuts] list by address, and every
    copy allocates. The methods above read a cell's list and build new
    ones; they are stated on the value of the list. *)
Module Heap.

(** An address is a position in the heap, which holds the list objects
    allocated so far. *)
Abbreviation loc := nat (only parsing).
Abbreviation heap := (list (list Cut)) (only parsing).

Definition M (A : Type) : Type := heap → outcome (A * heap).

Definition ret {A} (a : A) : M A := λ h, Ok (a, h).

Definition and_then {A B} (m : M A) (k : A → M B) : M B :=
  λ h, match m h with
       | Ok (a, h') => k a h'
       | Err e => Err e
       end.

Global Instance M_ret : MRet M := @ret.
Global Instance M_bind : MBind M := λ A B k m, and_then m k.

Definition raise {A} (e : exn) : M A := λ _, Err e.

Definition alloc (l : list Cut) : M loc :=
  λ h, Ok (length h, h ++ [l]).

Definition read (r : loc) : M (list Cut) :=
  λ h, match h !! r with
       | Some l => Ok (l, h)
       | None => Err (ExternalError "no such object")
       end.

Definition write (r : loc) (l : list Cut) : M unit :=
  λ h, Ok (tt, <[r := l]> h).

(** [l[:]] and [list(l)] *)
Definition list_copy (r : loc) : M loc :=
  l ← read r; alloc l.

(** [l[i] = x] *)
Definition list_setitem (r : loc) (i : nat) (x : Cut) : M unit :=
  l ← read r;
  if (i <? length l)%nat then write r (<[i := x]> l)
  else raise IndexError.

(** [l.append(x)] *)
Definition list_append (r : loc) (x : Cut) : M unit :=
  l ← read r; write r (l ++ [x]).

(** A cell object: its attribute [cuts] refers to a list object. *)
Record CellObj := { cuts_ref : loc }.

(** [Cell.__init__]: [self.cuts = list(cuts) if cuts is not None else []] *)
Definition Cell_init (cuts : option loc) : M CellObj :=
  match cuts with
  | Some r => r' ← list_copy r; mret {| cuts_ref := r' |}
  | None => r' ← alloc []; mret {| cuts_ref := r' |}
  end.

Definition _dimension_cut_index (self : CellObj) (dim : dimension)
  : M (option nat) :=
  l ← read (cuts_ref self);
  let names := map Cut_dimension l in
  mret (py_index dim names).

Definition slice (self : CellObj) (cut : Cut) : M CellObj :=
  cuts_ ← list_copy (cuts_ref self);
  index ← _dimension_cut_index self (Cut_dimension cut);
  _ ← match index with
      | Some index => list_setitem cuts_ index cut
      | None => list_append cuts_ cut
      end;
  Cell_init (Some cuts_).

(** The cell value an object stands for in a heap. *)
Definition cell_value (h : heap) (c : CellObj) : option Cell :=
  (λ l, {| cuts := l |}) <$> h !! cuts_ref c.

(** [multi_slice]; the argument is a list of cuts, so the test for a
    dictionary does not apply. *)
Fixpoint multi_slice (self : CellObj) (cuts : list Cut) : M CellObj :=
  match cuts with
  | [] => mret self
  | cut :: rest => cell ← slice self cut; multi_slice cell rest
  end.

End Heap.

(** *** More cell methods *)

(** [Cell.__and__] *)
Definition Cell_and (self other : Cell) : Cell :=
  {| cuts := cuts self ++ cuts other |}.

Definition dimension_cuts (self : Cell) (dim : dimension) (exclude : bool)
  : list Cut :=
  filter (λ cut, (exclude = true ∧ Cut_dimension cut ≠ dim)
                 ∨ (exclude = false ∧ Cut_dimension cut = dim))
         (cuts self).

(** [point_slice]; [path] may be [None]. *)
Definition point_slice (self : Cell) (dim : dimension)
    (path : option HierarchyPath) : Cell :=
  let cuts_ := dimension_cuts self dim true in
  if truthy_path path
  then
    let cut := PointCut dim (default [] path) None false false in
    {| cuts := cuts_ ++ [cut] |}
  else {| cuts := cuts_ |}.

(** [drilldown]; the list comprehension keeps every cut when no point cut
    was found. *)
Definition drilldown (self : Cell) (dim : dimension) (value : string)
    (hierarchy : option hierarchy_ref) : outcome Cell :=
  let dim_cut := find_point_cut self dim in
  old_path ← match dim_cut with
             | Some (_, c) => Cut_path c
             | None => Ok []
             end;
  let new_cut := PointCut dim (old_path ++ [Some value]) hierarchy false false in
  let cuts_ := match dim_cut with
               | Some (i, _) => cuts_other_than i (cuts self)
               | None => cuts self
               end in
  Ok {| cuts := cuts_ ++ [new_cut] |}.

(** A dictionary as the list of its items, in insertion order. *)
Fixpoint adict_set {V} (k : dimension) (v : V) (d : list (dimension * V))
  : list (dimension * V) :=
  match d with
  | [] => [(k, v)]
  | (k', v') :: d' =>
      if bool_decide (k' = k) then (k', v) :: d'
      else (k', v') :: adict_set k v d'
  end.

Fixpoint adict_get {V} (k : dimension) (d : list (dimension * V)) : option V :=
  match d with
  | [] => None
  | (k', v') :: d' => if bool_decide (k' = k) then Some v' else adict_get k d'
  end.

(** The body of the loop of [level_depths]: [max(depth, ...)] with the
    [None] that [RangeCut.level_depth] can return is a [TypeError]. *)
Definition level_depths_step (depths : list (dimension * nat)) (cut : Cut)
  : outcome (list (dimension * nat)) :=
  depth ← level_depth cut;
  let dim_name := Cut_dimension cut in
  match depth with
  | Some depth =>
      Ok (adict_set dim_name
            (Nat.max depth (default 0 (adict_get dim_name depths))) depths)
  | None =>
      Err (TypeError "'>' not supported between instances of 'int' and 'NoneType'")
  end.

Definition level_depths (self : Cell) : outcome (list (dimension * nat)) :=
  for_each level_depths_step [] (cuts self).

(** [to_str] and [__str__] *)
Definition to_str (self : Cell) : outcome string := string_from_cuts (cuts self).

End Cells.

(** ** [cubes/sql/browser.py] *)

Module Browser.
Import Cells.

(** A column value; [Null] is Python's [None]. *)
Inductive value :=
| Null
| Int (n : Z)
| Str (s : string).

Definition row := list value.
Definition record := gmap string value.

(** [dict(zip(labels, row))]: a later pair replaces an earlier one with
    the same label. *)
Definition dict_zip (labels : list string) (r : row) : record :=
  foldl (λ d kv, <[kv.1 := kv.2]> d) ∅ (zip labels r).

(** A cursor: the batches its [fetchmany()] calls will return, in order;
    once they are used up it returns the empty list. *)
Definition cursor := list (list row).


(** *** ResultIterator *)

(** [batch] is [None] or a deque; [None] and the empty deque are both
    false and the code never tells them apart, so both are [[]] here. *)
Record ResultIterator := {
  result : cursor;
  batch : list row;
  labels : list string;
  exclude_if_null : option (list string)
}.

Definition ResultIterator_init (result_ : cursor) (labels_ : list string)
  : ResultIterator :=
  {| result := result_; batch := []; labels := labels_;
     exclude_if_null := None |}.

(** [self.exclude_if_nul]: the object has no attribute of that name. *)
Definition self_exclude_if_nul (self : ResultIterator) : outcome (list string) :=
  Err (AttributeError "exclude_if_nul").

(** [cell]: no such local or global name in [__iter__]. *)
Definition name_cell : outcome record := Err (NameError "cell").

(** [any(f(x) for x in l)] *)
Fixpoint py_any {A} (f : A → outcome bool) (l : list A) : outcome bool :=
  match l with
  | [] => Ok false
  | x :: l' => b ← f x; if b : bool then Ok true else py_any f l'
  end.

(** The condition of the [if ... continue] of the loop body. *)
Definition skip_row (self : ResultIterator) : outcome bool :=
  if truthy_path (exclude_if_null self) then
    aggs ← self_exclude_if_nul self;
    py_any (λ agg : string,
              cell ← name_cell;
              match cell !! agg with
              | Some Null => Ok true
              | Some _ => Ok false
              | None => Err (KeyError agg)
              end) aggs
  else Ok false.

(** What one resumption of the generator ends with. *)
Inductive step :=
| Yield (r : record)
| Stop
| Raise (e : exn).

(** The rows of the current batch: each is popped, then skipped or
    yielded. Returns the record to yield ([None] when the batch runs
    empty first) and the rows left in the batch. *)
Fixpoint pop_rows (self : ResultIterator) (b : list row)
  : outcome (option record) * list row :=
  match b with
  | [] => (Ok None, [])
  | r :: b' =>
      match skip_row self with
      | Err e => (Err e, b')
      | Ok true => pop_rows self b'
      | Ok false => (Ok (Some (dict_zip (labels self) r)), b')
      end
  end.

Definition with_state (self : ResultIterator) (c : cursor)
    (b : list row) : ResultIterator :=
  {| result := c; batch := b; labels := labels self;
     exclude_if_null := exclude_if_null self |}.

(** [__iter__], one resumption: from the top of [while True] to the next
    [yield], the [break], or an exception. [b] is the current batch and
    [c] the cursor. *)
Fixpoint resume (self : ResultIterator) (c : cursor) (b : list row)
  : step * ResultIterator :=
  match pop_rows self b with
  | (Err e, b') => (Raise e, with_state self c b')
  | (Ok (Some r), b') => (Yield r, with_state self c b')
  | (Ok None, b') =>
      match c with
      | [] => (Stop, with_state self [] b')
      | many :: c' =>
          match many with
          | [] => (Stop, with_state self c' b')
          | _ :: _ => resume self c' many
          end
      end
  end.

Definition next (self : ResultIterator) : step * ResultIterator :=
  resume self (result self) (batch self).

(** [list(iterator)]: the yielded records, and the exception that ended
    the iteration if one did. Every step but the last pops a row, so
    there are at most as many steps as rows, and one more. *)
Fixpoint collect (fuel : nat) (self : ResultIterator)
  : list record * option exn :=
  match fuel with
  | O => ([], None)
  | S fuel' =>
      match next self with
      | (Yield r, self') =>
          let '(rs, e) := collect fuel' self' in (r :: rs, e)
      | (Stop, _) => ([], None)
      | (Raise e, _) => ([], Some e)
      end
  end.

Definition rows_left (self : ResultIterator) : nat :=
  length (batch self) + length (concat (result self)).

Definition to_list (self : ResultIterator) : list record * option exn :=
  collect (S (rows_left self)) self.

(** *** provide_aggregate *)

Record Aggregate := {
  aggregate_name : string;
  function : option string;
  expression : option string
}.



(** [aggregate_column]. [get_aggregate_function] is a function of
    [cubes/sql/functions.py], which is not among the sources: a parameter,
    which may raise, or return nothing or a function. [self.base_columns]
    is read when the arguments of the call are evaluated; [__init__] does
    not assign it, so what the read gives, an [AttributeError] included, is
    up to the base class, not among the sources either: a parameter too.
    [ModelError] has no constructor of its own among the exceptions. *)
Definition truthy_str (s : option string) : bool :=
  match s with
  | Some s => negb (String.eqb s "")
  | None => false
  end.

Definition aggregate_column {Column BaseColumns : Type}
    (get_aggregate_function :
       string → outcome (option (Aggregate → BaseColumns → bool → outcome Column)))
    (self_base_columns : outcome BaseColumns)
    (aggregate : Aggregate) (coalesce_measure : bool) : outcome Column :=
  if negb (truthy_str (expression aggregate) || truthy_str (function aggregate))
  then Err (ExternalError "ModelError: Neither expression nor function specified for aggregate")
  else if truthy_str (expression aggregate)
  then Err (NotImplementedError "Expressions are not yet implemented")
  else
    match function aggregate with
    | Some f =>
        let function_name := py_lower f in
        function ← get_aggregate_function function_name;
        match function with
        | Some function =>
            base_columns ← self_base_columns;
            function aggregate base_columns coalesce_measure
        | None => Err (NotImplementedError "I don't know what to do")
        end
    | None => Err (AttributeError "lower")
    end.

(** The executed statements, oldest first, with the label given to
    [execute]. *)
Definition log (Statement : Type) : Type := list (option string * Statement).

Section ProvideAggregate.

(** Statements, drilldown objects, attributes, orders, levels and
    calculators belong to modules outside the modelled sources. *)
Context {Statement Drilldown Order Levels Attribute : Type}.

Record External := {
  (** [bool(drilldown)] *)
  drilldown_bool : Drilldown → bool;
  (** [AggregationBrowser.assert_low_cardinality(cell, drilldown)] *)
  assert_low_cardinality : Cell → option Drilldown → outcome unit;
  (** [Drilldown()] *)
  Drilldown_init : outcome Drilldown;
  (** [str(drilldown)] *)
  Drilldown_str : Drilldown → outcome string;
  (** [drilldown.all_attributes] *)
  Drilldown_all_attributes : Drilldown → outcome (list Attribute);
  (** [drilldown.result_levels(include_split)] *)
  result_levels : Drilldown → bool → outcome Levels;
  (** [drilldown.natural_order] *)
  natural_order : Drilldown → Order;
  paginate_query : Statement → option Z → option Z → outcome Statement;
  order_query : Statement → option Order → Order → outcome Statement;
  (** [[col.name for col in statement.columns]] *)
  column_names : Statement → list string;
  (** [statement.alias().count()] *)
  count_statement : Statement → Statement;
  (** [self.connectable.execute(statement)] *)
  connectable_execute : Statement → outcome cursor;
  (** [calculators_for_aggregates(cube, aggregates, drilldown, split, functions)] *)
  calculators_for_aggregates :
    list Aggregate → option Drilldown → option Cell
    → outcome (list (record → outcome record));
  available_aggregate_functions : list string
}.


(** Computations that execute statements: the log is kept when an
    exception is raised. *)
Definition DB (A : Type) : Type := log Statement → outcome A * log Statement.

Definition db_ret {A} (a : A) : DB A := λ l, (Ok a, l).

Definition db_bind {A B} (m : DB A) (k : A → DB B) : DB B :=
  λ l, match m l with
       | (Ok a, l') => k a l'
       | (Err e, l') => (Err e, l')
       end.

Definition lift {A} (r : outcome A) : DB A := λ l, (r, l).

(** [self.execute(statement, label)] *)
Definition execute (ext : External) (statement : Statement)
    (label : option string) : DB cursor :=
  λ l, (connectable_execute ext statement, l ++ [(label, statement)]).






Global Instance DB_ret : MRet DB := @db_ret.
Global Instance DB_bind : MBind DB := λ A B k m, db_bind m k.










End ProvideAggregate.

End Browser.

(** ** Specification vocabulary and sample data *)

Module Spec.
Import Cells.

(** The character a separator placed after [s] is preceded by, when [s]
    itself is preceded by [prev]. *)
Fixpoint final (prev : option ascii) (s : string) : option ascii :=
  match s with
  | EmptyString => prev
  | String c rest => final (Some c) rest
  end.

Definition ends_with_backslash (e : string) : Prop :=
  final None e = Some Re.backslash.

(** [",".join] of escaped elements. *)
Definition join_escaped (p : list string) : string :=
  String.concat PATH_STRING_SEPARATOR_CHAR (map Re.escape_sub p).

(** No character of [s] is a separator that [Re.split_from] would cut at. *)
Fixpoint unsplit (sep : ascii) (prev : option ascii) (s : string) : bool :=
  match s with
  | EmptyString => true
  | String c rest =>
      negb (Ascii.eqb c sep
            && negb (match prev with
                     | Some p => Ascii.eqb p Re.backslash
                     | None => false
                     end))
      && unsplit sep (Some c) rest
  end.

(** Acceptance by a derivative that may be the empty language. *)
Definition accepts_opt (o : option Re.regex) (s : string) : bool :=
  match o with
  | Some r => Re.accepts r s
  | None => false
  end.

(** A name made of word characters only, and of at least one. *)
Fixpoint all_word (s : string) : bool :=
  match s with
  | EmptyString => true
  | String c rest => Re.is_word c && all_word rest
  end.

Definition word (s : string) : Prop := s ≠ "" ∧ all_word s = true.

(** The triple [deepest_levels] is to give for a cut: its dimension, the
    hierarchy the dimension answers with, and the level at the cut's
    depth, none at depth zero. *)
Definition deepest_item (md : Metadata) (cut : Cut) (item : level_item) : Prop :=
  ∃ hier depth,
    dim_hierarchy md (Cut_dimension cut) (Cut_hierarchy cut) = Ok hier
    ∧ level_depth cut = Ok depth
    ∧ match depth with
      | Some (S n) =>
          ∃ level, levels hier !! n = Some level
                   ∧ item = (Cut_dimension cut, hier, Some level)
      | _ => item = (Cut_dimension cut, hier, None)
      end.

Definition nonzero_depth (cut : Cut) : Prop :=
  ∃ n, level_depth cut = Ok (Some (S n)).

(** The list [slice] is to leave in the new cell. *)
Definition sliced (cs : list Cut) (cut : Cut) : list Cut :=
  match py_index (Cut_dimension cut) (map Cut_dimension cs) with
  | Some i => <[i := cut]> cs
  | None => cs ++ [cut]
  end.

(** What a dictionary of depths says of a dimension, against the cuts
    it was made from: no entry and no cut of the dimension, or the depth of
    one of its cuts that bounds the depths of them all. *)
Definition depth_entry (cuts_ : list Cut) (d : dimension) (entry : option nat)
  : Prop :=
  match entry with
  | None => ∀ c, c ∈ cuts_ → Cut_dimension c ≠ d
  | Some n =>
      (∃ c, c ∈ cuts_ ∧ Cut_dimension c = d ∧ level_depth c = Ok (Some n))
      ∧ ∀ c, c ∈ cuts_ → Cut_dimension c = d →
             ∃ k, level_depth c = Ok (Some k) ∧ (k ≤ n)%nat
  end.

Definition has_depth (c : Cut) : Prop := ∃ k, level_depth c = Ok (Some k).

(** A string of ASCII characters only; on these [py_lower] is
    [str.lower]. *)
Definition ascii_only (s : string) : bool :=
  forallb (λ c, (Ascii.nat_of_ascii c <? 128)%nat) (list_ascii_of_string s).



(** The rows a cursor gives before its first empty batch. *)
Fixpoint fetched (c : Browser.cursor) : list Browser.row :=
  match c with
  | [] => []
  | [] :: _ => []
  | many :: c' => many ++ fetched c'
  end.

(** The rows an iterator still has to go through. *)
Definition rows_ahead (it : Browser.ResultIterator) : list Browser.row :=
  Browser.batch it ++ fetched (Browser.result it).

(** The last of the cuts of a dimension in a list. *)
Definition last_for (dim : dimension) (cuts_ : list Cut) : option Cut :=
  last (filter (λ c, Cut_dimension c = dim) cuts_).

(** A cut without the two attributes that [__eq__] does not compare. *)
Definition bare (c : Cut) : Cut :=
  match c with
  | PointCut d p _ i _ => PointCut d p None i false
  | RangeCut d f t _ i _ => RangeCut d f t None i false
  | SetCut d ps _ i _ => SetCut d ps None i false
  end.

End Spec.

Module Samples.
Import Cells Browser.

Definition year : Level := {| level_name := "year" |}.
Definition month : Level := {| level_name := "month" |}.
Definition ymd : Hierarchy := {| hierarchy_name := "ym"; levels := [year; month] |}.
Definition date_dim : Dimension :=
  {| dimension_name := "date"; role := None; hierarchies := [ymd] |}.

Definition category : Level := {| level_name := "category" |}.
Definition item_hier : Hierarchy :=
  {| hierarchy_name := "default"; levels := [category] |}.
Definition item_dim : Dimension :=
  {| dimension_name := "item"; role := None; hierarchies := [item_hier] |}.

(** A dimensional model in which every dimension answers with its first
    hierarchy and roll-up drops the last path element. *)
Definition md : Metadata :=
  {| Dimension_hierarchy d _ :=
       match hierarchies d with
       | h :: _ => Ok h
       | [] => Err (ExternalError "no hierarchy")
       end;
     Hierarchy_rollup _ path _ := Ok (removelast path);
     Hierarchy_getitem h n :=
       match list_find (λ l, level_name l = n) (levels h) with
       | Some (_, l) => Ok l
       | None => Err (KeyError n)
       end;
     Cube_dimension _ d :=
       match d with
       | DimObj o => Ok o
       | DimName _ => Ok date_dim
       end |}.

Definition date_2004 : Cut := PointCut (DimName "date") [Some "2004"] None false false.
Definition date_2004_1 : Cut :=
  PointCut (DimName "date") [Some "2004"; Some "1"] None false false.
Definition date_2010 : Cut := PointCut (DimName "date") [Some "2010"] None false false.
Definition class_5 : Cut := PointCut (DimName "class") [Some "5"] None false false.
Definition date_range : Cut :=
  RangeCut (DimName "date") (Some [Some "2004"]) (Some [Some "2010"]) None false false.
Definition hidden_set : Cut :=
  SetCut (DimName "date") [[Some "2004"]; [Some "2010"]] None true true.

Definition date_obj_2004 : Cut := PointCut (DimObj date_dim) [Some "2004"] None false false.
Definition item_obj_all : Cut := PointCut (DimObj item_dim) [] None false false.

(** A browser over statements named by strings. *)
Definition low_cardinality (d : option (list string)) : outcome unit :=
  if bool_decide ("customer" ∈ default [] d)
  then Err (ArgumentError "Can not drilldown on high-cardinality levels without pagination")
  else Ok ().

Definition ext : @External string (list string) unit unit string :=
  {| drilldown_bool d := negb (bool_decide (d = []));
     assert_low_cardinality _ d := low_cardinality d;
     Drilldown_init := Ok [];
     Drilldown_str d := Ok (String.concat "," d);
     Drilldown_all_attributes d := Ok d;
     result_levels _ _ := Ok ();
     natural_order _ := ();
     paginate_query s _ _ := Ok s;
     order_query s _ _ := Ok s;
     column_names s :=
       if String.eqb s "summary" then ["amount_sum"] else ["customer"; "amount_sum"];
     count_statement _ := "count";
     connectable_execute s :=
       if String.eqb s "summary" then Ok [[[Int 15]]]
       else if String.eqb s "count" then Ok [[[Int 2]]]
       else Ok [[[Str "a"; Null]; [Str "b"; Int 15]]];
     calculators_for_aggregates _ _ _ := Ok [];
     available_aggregate_functions := ["sum"; "count"; "min"; "max"; "avg"] |}.



(** An iterator on which null-exclusion has been set. *)
Definition excluding : ResultIterator :=
  {| result := [[[Str "a"; Null]; [Str "b"; Int 15]]]; batch := [];
     labels := ["customer"; "amount_sum"];
     exclude_if_null := Some ["amount_sum"] |}.

End Samples.

(** ** Sample evaluations *)

Example split_ex1 : Re.split ","%char "a\,b,c" = ["a\,b"; "c"].
Proof. reflexivity. Qed.

Example split_ex2 : Re.split ","%char "" = [""].
Proof. reflexivity. Qed.

Example unescape_ex : Re.unescape_sub (Re.escape_sub "a-b\c,d") = "a-b\c,d".
Proof. reflexivity. Qed.

Example patterns_ex :
  Re.RE_POINT "2004,1" = true ∧ Re.RE_POINT "2004-1" = false
  ∧ Re.RE_POINT "2004\-1" = true ∧ Re.RE_SET "1;2" = true
  ∧ Re.RE_RANGE "1-2" = true ∧ Re.RE_RANGE "1-" = true
  ∧ Re.RE_RANGE "-" = true ∧ Re.RE_POINT "a\\:" = true.
Proof. repeat split; vm_compute; reflexivity. Qed.

Example dim_hier_ex :
  Re.dim_hier_pattern "!date@dqmy" = Some (Some "!", "date", Some "dqmy")
  ∧ Re.dim_hier_pattern "date" = Some (None, "date", None)
  ∧ Re.dim_hier_pattern "date@" = Some (None, "date", None)
  ∧ Re.dim_hier_pattern "!" = None.
Proof. repeat split; vm_compute; reflexivity. Qed.

Example Cut_str_ex :
  Cells.Cut_str Samples.date_2004_1 = Ok "date:2004,1"
  ∧ Cells.Cut_str Samples.date_range = Ok "date:2004-2010"
  ∧ Cells.Cut_str Samples.hidden_set = Ok "!date:2004;2010".
Proof. repeat split; vm_compute; reflexivity. Qed.

(** ** The path codec *)

Module CodecFacts.
Import Re Cells Spec.

Lemma escapable_backslash : escapable backslash = true.
Proof. reflexivity. Qed.

Lemma escapable_comma : escapable ","%char = true.
Proof. reflexivity. Qed.

Lemma not_escapable_neq (c d : ascii) :
  escapable c = false → escapable d = true → Ascii.eqb c d = false.
Proof.
  intros Hc Hd. destruct (Ascii.eqb_spec c d) as [->|]; congruence.
Qed.

(** Substituting the escapes back undoes the escaping. *)
Lemma unescape_escape_sub (s : string) :
  unescape_sub (escape_sub s) = s.
Proof.
  induction s as [|c rest IH]; [reflexivity|].
  cbn [escape_sub]. destruct (escapable c) eqn:Hc.
  - cbn [unescape_sub]. rewrite Ascii.eqb_refl, Hc. cbn. by rewrite IH.
  - change (unescape_sub (String c (escape_sub rest)))
      with (match escape_sub rest with
            | String c' rest' =>
                if Ascii.eqb c backslash && escapable c'
                then String c' (unescape_sub rest')
                else String c (unescape_sub (escape_sub rest))
            | EmptyString => String c EmptyString
            end).
    rewrite (not_escapable_neq c backslash Hc escapable_backslash).
    cbn [andb]. rewrite IH. by destruct (escape_sub rest), rest.
Qed.

(** No separator of an escaped string is left unescaped, whatever
    precedes it. *)
Lemma split_from_escape_sub (sep : ascii) (prev : option ascii) (s : string) :
  escapable sep = true → sep ≠ backslash →
  split_from sep prev (escape_sub s) = [escape_sub s].
Proof.
  intros Hsep Hbs. revert prev.
  induction s as [|c rest IH]; intros prev; [reflexivity|].
  cbn [escape_sub]. destruct (escapable c) eqn:Hc.
  - cbn [split_from].
    destruct (Ascii.eqb_spec backslash sep) as [Heq|_]; [congruence|].
    rewrite Ascii.eqb_refl, andb_false_r. cbn [andb negb].
    by rewrite IH.
  - cbn [split_from].
    rewrite (not_escapable_neq c sep Hc Hsep). cbn [andb].
    by rewrite IH.
Qed.

Lemma escape_sub_empty (s : string) : escape_sub s = "" → s = "".
Proof.
  destruct s as [|c rest]; [done|].
  cbn [escape_sub]. destruct (escapable c); discriminate.
Qed.

Lemma escape_sub_null (s : string) :
  escape_sub s = NULL_PATH_VALUE → s = NULL_PATH_VALUE.
Proof.
  intros H. rewrite <- (unescape_escape_sub s), H. reflexivity.
Qed.

Lemma unescape_escape_part (e : string) :
  e ≠ NULL_PATH_VALUE →
  _path_part_unescape (_path_part_escape (Some e)) = Some e.
Proof.
  intros Hnull. unfold _path_part_unescape, _path_part_escape.
  destruct (String.eqb_spec (escape_sub e) NULL_PATH_VALUE) as [H1|_].
  { by apply escape_sub_null in H1. }
  by rewrite unescape_escape_sub.
Qed.

Lemma append_nil_l (s : string) : "" +:+ s = s.
Proof. reflexivity. Qed.

Lemma append_cons_l (c : ascii) (s t : string) :
  String c s +:+ t = String c (s +:+ t).
Proof. reflexivity. Qed.

(** An escaped element followed by a separator is split off there, as
    long as the element does not end in a backslash. *)
Lemma split_from_escape_app (sep : ascii) (prev : option ascii)
    (e rest : string) :
  escapable sep = true → sep ≠ backslash →
  final prev e ≠ Some backslash →
  split_from sep prev (escape_sub e +:+ String sep rest)
  = escape_sub e :: split_from sep (Some sep) rest.
Proof.
  intros Hsep Hbs. revert prev.
  induction e as [|c e' IH]; intros prev Hfin.
  - cbn in Hfin. cbn [escape_sub]. rewrite append_nil_l.
    cbn [split_from]. rewrite Ascii.eqb_refl. cbn [andb].
    destruct prev as [p|]; [|done].
    destruct (Ascii.eqb_spec p backslash) as [->|_]; [done|done].
  - cbn [final] in Hfin. cbn [escape_sub].
    destruct (escapable c) eqn:Hc.
    + rewrite !append_cons_l. cbn [split_from].
      destruct (Ascii.eqb_spec backslash sep) as [Heq|_]; [congruence|].
      rewrite Ascii.eqb_refl, andb_false_r. cbn [andb negb].
      by rewrite IH.
    + rewrite !append_cons_l. cbn [split_from].
      rewrite (not_escapable_neq c sep Hc Hsep). cbn [andb].
      by rewrite IH.
Qed.

Lemma final_nonempty (p q : option ascii) (c : ascii) (s : string) :
  final p (String c s) = final q (String c s).
Proof. reflexivity. Qed.

Lemma final_not_backslash (prev : option ascii) (e : string) :
  prev ≠ Some backslash → ¬ ends_with_backslash e →
  final prev e ≠ Some backslash.
Proof.
  unfold ends_with_backslash. destruct e as [|c e']; [done|].
  by rewrite (final_nonempty prev None).
Qed.

Lemma join_escaped_cons (e e' : string) (p : list string) :
  join_escaped (e :: e' :: p)
  = escape_sub e +:+ String ","%char (join_escaped (e' :: p)).
Proof. reflexivity. Qed.

Lemma split_from_join_escaped (prev : option ascii) (p : list string) :
  p ≠ [] → prev ≠ Some backslash →
  Forall (λ e, ¬ ends_with_backslash e) (removelast p) →
  split_from ","%char prev (join_escaped p) = map escape_sub p.
Proof.
  intros Hne. revert prev.
  induction p as [|e p IH]; [done|]. intros prev Hprev Hall.
  destruct p as [|e' p].
  - cbn. by apply split_from_escape_sub.
  - rewrite join_escaped_cons.
    change (removelast (e :: e' :: p)) with (e :: removelast (e' :: p)) in Hall.
    apply Forall_cons in Hall as [He Hall].
    rewrite split_from_escape_app; [|done|done|by apply final_not_backslash].
    rewrite IH; [done|done|done|done].
Qed.

Lemma join_escaped_empty (p : list string) :
  join_escaped p = "" → p = [] ∨ p = [""].
Proof.
  destruct p as [|e [|e' p]]; [by left| |].
  - cbn. intros H%escape_sub_empty. right. by subst.
  - rewrite join_escaped_cons. intros H.
    destruct (escape_sub e); discriminate.
Qed.

Lemma truthy_path_map {A B} (f : A → B) (p : list A) :
  truthy_path (Some (map f p)) = truthy_path (Some p).
Proof. by destruct p. Qed.

(** Decoding the encoding of a path of strings gives the path back. *)
Lemma path_roundtrip (p : list string) :
  p ≠ [] → p ≠ [""] →
  Forall (λ e, e ≠ NULL_PATH_VALUE) p →
  Forall (λ e, ¬ ends_with_backslash e) (removelast p) →
  path_from_string (string_from_path (Some (map Some p))) = map Some p.
Proof.
  intros Hne Hne' Hnull Hbs.
  unfold string_from_path. rewrite truthy_path_map.
  destruct p as [|e p]; [done|]. cbn [truthy_path negb default from_option id].
  rewrite map_map. cbn [py_str _path_part_escape].
  change (String.concat _ _) with (join_escaped (e :: p)).
  unfold path_from_string.
  destruct (String.eqb_spec (join_escaped (e :: p)) "") as [H0|_].
  { apply join_escaped_empty in H0 as [?|?]; done. }
  unfold PATH_STRING_SEPARATOR, split.
  rewrite split_from_join_escaped by done.
  rewrite map_map. apply map_ext_Forall.
  eapply Forall_impl; [exact Hnull|]. intros x Hx. cbn.
  by apply unescape_escape_part.
Qed.

(** C6, as stated, fails: the path made of the single empty string
    encodes to the empty string and not to the [__null__] token, decodes
    to the empty path and not back to itself, and has the encoding of the
    absent path; and an element ending in a backslash does not survive
    when another element follows it. *)
Lemma empty_element_is_not_the_sentinel :
  string_from_path (Some [Some ""]) ≠ NULL_PATH_VALUE
  ∧ path_from_string (string_from_path (Some [Some ""])) ≠ [Some ""]
  ∧ string_from_path (Some [Some ""]) = string_from_path None
  ∧ string_from_path (Some [Some ""]) = string_from_path (Some [])
  ∧ path_from_string (string_from_path (Some [Some "a\"; Some "b"]))
    = [Some "a\,b"].
Proof. repeat split; vm_compute; congruence. Qed.

(** C6 (amended): a path of one or more strings -- whatever reserved
    characters or backslashes they contain -- is decoded by
    [path_from_string] from its [string_from_path] encoding exactly,
    provided it is not the single empty string, no element is the token
    [__null__], and no element but the last ends in a backslash. The path
    made of the single empty string encodes to the empty string, which is
    also the encoding of the empty and of the absent path and decodes to
    the empty path; the token [__null__] is the escaped form of a [None]
    part and unescapes to [None]. *)
Theorem path_elements_roundtrip :
  (∀ p : list string,
      p ≠ [] → p ≠ [""] →
      Forall (λ e, e ≠ NULL_PATH_VALUE) p →
      Forall (λ e, ¬ ends_with_backslash e) (removelast p) →
      path_from_string (string_from_path (Some (map Some p))) = map Some p)
  ∧ string_from_path (Some [Some ""]) = ""
  ∧ string_from_path (Some []) = ""
  ∧ string_from_path None = ""
  ∧ path_from_string "" = []
  ∧ _path_part_escape None = NULL_PATH_VALUE
  ∧ _path_part_unescape NULL_PATH_VALUE = None.
Proof.
  split; [exact path_roundtrip|]. repeat split.
Qed.

Lemma path_elements_roundtrip_witness :
  path_from_string
    (string_from_path (Some (map Some ["a,b|c:d;e-f\g!h"; ""; "x\"])))
  = map Some ["a,b|c:d;e-f\g!h"; ""; "x\"].
Proof.
  apply (proj1 path_elements_roundtrip).
  - discriminate.
  - discriminate.
  - repeat constructor; discriminate.
  - repeat constructor; discriminate.
Defined.

End CodecFacts.

(** ** Decoding cuts *)

Module DecodeFacts.
Import Re Cells Spec.

Lemma apply_converter_unbound (conv : MemberConverter) (path : HierarchyPath) :
  apply_converter (Some conv) None None path = Err (UnboundLocalError "dimension").
Proof. reflexivity. Qed.

(** With a cube, the first thing read is the unassigned [dimension]. *)
Lemma cut_from_string_with_cube (md : Metadata) (s : string) (cube : Cube)
    (mc rmc : option (gmap string MemberConverter)) :
  is_ok (cut_from_string md s (Some cube) mc rmc) = false.
Proof.
  unfold cut_from_string.
  destruct (DIMENSION_STRING_SEPARATOR s) as [|dimspec [|rest [|? ?]]]; try done.
  cbn. by destruct (dim_hier_pattern dimspec) as [[[inv dim] hier]|].
Qed.

(** Without a cube, every branch that builds a cut reads it. *)
Lemma cut_from_string_without_cube (md : Metadata) (s : string)
    (mc rmc : option (gmap string MemberConverter)) :
  is_ok (cut_from_string md s None mc rmc) = false.
Proof.
  unfold cut_from_string.
  destruct (DIMENSION_STRING_SEPARATOR s) as [|dimspec [|rest [|? ?]]]; try done.
  cbn. destruct (dim_hier_pattern dimspec) as [[[inv dim] hier]|]; [|done].
  cbn. destruct (String.eqb rest ""); [done|].
  destruct (RE_POINT rest).
  { by destruct (default ∅ mc !! dim). }
  destruct (RE_SET rest).
  { destruct (default ∅ mc !! dim); [|done].
    destruct (SET_CUT_SEPARATOR rest); done. }
  destruct (RE_RANGE rest); [|done].
  destruct (map path_from_string (RANGE_CUT_SEPARATOR rest))
    as [|f [|t [|? ?]]]; try done.
  by destruct (default ∅ mc !! dim).
Qed.

(** C1: the code never decodes a cut string. [cut_from_string] reads its
    local [dimension] before any assignment to it, with a cube and
    without one, so it ends in an exception on every input; on the
    encoding [date:2004] of the point cut [PointCut("date", ["2004"])]
    that exception is [UnboundLocalError]. *)
Theorem cut_from_string_never_returns :
  (∀ md s cube mc rmc, is_ok (cut_from_string md s cube mc rmc) = false)
  ∧ Cut_str Samples.date_2004 = Ok "date:2004"
  ∧ (∀ md, cut_from_string md "date:2004" None None None
           = Err (UnboundLocalError "dimension"))
  ∧ (∀ md cube, cut_from_string md "date:2004" (Some cube) None None
                = Err (UnboundLocalError "dimension")).
Proof.
  split; [|repeat split].
  intros md s [cube|] mc rmc.
  - apply cut_from_string_with_cube.
  - apply cut_from_string_without_cube.
Qed.

End DecodeFacts.

(** ** Cut dictionaries *)

Module DictFacts.
Import Cells.

Ltac unfold_bind := unfold mbind, outcome_bind, Py.bind in *.

Lemma cut_from_dict_hidden (md : Metadata) (desc : gmap string pyval)
    (cube : option Cube) (c : Cut) :
  cut_from_dict md desc cube = Ok c → Cut_hidden c = false.
Proof.
  unfold cut_from_dict. unfold_bind.
  intros H. repeat (case_match; try discriminate); by simplify_eq.
Qed.

Lemma as_hierarchy_of (h : option hierarchy_ref) :
  ∃ h', as_hierarchy (Some (if truthy_hierarchy h then of_hierarchy h else VNone))
        = Ok h'.
Proof. destruct h as [[n|o]|]; cbn; [destruct (negb _)|..]; eauto. Qed.

Lemma Cut_eq_refl (c : Cut) : Cut_eq c c = true.
Proof. destruct c; cbn; by rewrite !bool_decide_eq_true_2. Qed.

Lemma cut_from_dict_to_dict (md : Metadata) (c : Cut) (d : gmap string pyval) :
  to_dict c = Ok d →
  ∃ c', cut_from_dict md d None = Ok c'
        ∧ Cut_hidden c' = false ∧ Cut_eq c' c = true.
Proof.
  unfold to_dict, Cut_to_dict_base. unfold_bind.
  destruct (level_depth c) as [depth|e] eqn:Hdepth; [|done].
  destruct (as_hierarchy_of (Cut_hierarchy c)) as [h' Hh'].
  destruct c as [dim path h i hid|dim f t h i hid|dim ps h i hid];
    intros [= <-]; unfold cut_from_dict; simplify_map_eq; unfold_bind;
    rewrite Hh'; destruct dim; try destruct f; try destruct t; cbn;
    (eexists; split; [reflexivity|split; [reflexivity|]]);
    cbn; by rewrite !bool_decide_eq_true_2.
Qed.

(** C10: the cut [cut_from_dict] returns has [hidden] false, for every
    dictionary and with or without a cube; the dictionary [to_dict] makes
    of a cut -- hidden or not -- is decoded, into a cut equal to the
    original, with [hidden] false. *)
Theorem cut_from_dict_never_hidden :
  (∀ md desc cube c, cut_from_dict md desc cube = Ok c → Cut_hidden c = false)
  ∧ (∀ md c d, to_dict c = Ok d →
       ∃ c', cut_from_dict md d None = Ok c'
             ∧ Cut_hidden c' = false ∧ Cut_eq c' c = true).
Proof.
  split; [exact cut_from_dict_hidden|exact cut_from_dict_to_dict].
Qed.

Lemma cut_from_dict_never_hidden_witness :
  ∃ d c', to_dict Samples.hidden_set = Ok d
          ∧ Cut_hidden Samples.hidden_set = true
          ∧ cut_from_dict Samples.md d None = Ok c'
          ∧ Cut_hidden c' = false.
Proof.
  destruct (proj2 cut_from_dict_never_hidden Samples.md Samples.hidden_set _ eq_refl)
    as (c' & Hc' & _ & _).
  eexists _, c'. split; [reflexivity|]. split; [reflexivity|].
  split; [exact Hc'|].
  exact (proj1 cut_from_dict_never_hidden _ _ _ _ Hc').
Defined.

End DictFacts.

(** ** The cell algebra *)

Module CellFacts.
Import Cells Spec.
Import DictFacts.

(** *** Equality *)

Lemma Cut_eq_sym (a b : Cut) : Cut_eq a b = Cut_eq b a.
Proof.
  destruct a, b; cbn; try reflexivity;
    repeat (case_bool_decide; cbn; try reflexivity; try congruence).
Qed.

Lemma Cut_in_here (c : Cut) (l : list Cut) : c ∈ l → Cut_in c l = true.
Proof.
  intros Hin. apply existsb_exists. exists c.
  split; [by apply list_elem_of_In|apply Cut_eq_refl].
Qed.

Lemma Cell_eq_refl (a : Cell) : Cell_eq a a = true.
Proof.
  unfold Cell_eq. rewrite Nat.eqb_refl. cbn.
  apply forallb_forall. intros c Hc.
  by apply Cut_in_here, list_elem_of_In.
Qed.

(** Two cuts in either order make equal cells. *)
Lemma Cell_eq_swap (x y : Cut) :
  Cell_eq {| cuts := [x; y] |} {| cuts := [y; x] |} = true.
Proof.
  unfold Cell_eq. cbn. rewrite !Cut_eq_refl. cbn.
  by rewrite orb_true_r.
Qed.

Lemma Cut_eq_bare (a b : Cut) : Cut_eq a b = true ↔ bare a = bare b.
Proof.
  destruct a, b; cbn; split; try discriminate;
    repeat (case_bool_decide; cbn; try discriminate); try congruence;
    intros [=]; congruence.
Qed.

Lemma Cut_in_bare (c : Cut) (l : list Cut) :
  Cut_in c l = true ↔ bare c ∈ bare <$> l.
Proof.
  unfold Cut_in. rewrite existsb_exists, list_elem_of_fmap. split.
  - intros (item & Hin & Heq). exists item.
    split; [symmetry; by apply Cut_eq_bare|by apply list_elem_of_In].
  - intros (item & Heq & Hin). exists item.
    split; [by apply list_elem_of_In|by apply Cut_eq_bare].
Qed.

Lemma Cell_eq_true (a b : Cell) :
  Cell_eq a b = true
  ↔ length (cuts a) = length (cuts b)
    ∧ ∀ c, c ∈ cuts a → bare c ∈ bare <$> cuts b.
Proof.
  unfold Cell_eq.
  destruct (Nat.eqb_spec (length (cuts a)) (length (cuts b))) as [Hlen|Hlen];
    cbn; [|split; [discriminate|tauto]].
  rewrite forallb_forall. split.
  - intros H. split; [done|]. intros c Hc.
    by apply Cut_in_bare, H, list_elem_of_In.
  - intros [_ H] c Hc. by apply Cut_in_bare, H, list_elem_of_In.
Qed.

(** Where the receiver repeats no cut, the code's equality is equality of
    the two collections of cuts, order apart. *)
Lemma Cell_eq_NoDup (a b : Cell) :
  NoDup (bare <$> cuts a) →
  Cell_eq a b = true ↔ bare <$> cuts a ≡ₚ bare <$> cuts b.
Proof.
  intros Hnodup. rewrite Cell_eq_true. split.
  - intros [Hlen Hsub]. apply submseteq_length_Permutation.
    + apply NoDup_submseteq; [done|].
      intros x (c & -> & Hc)%list_elem_of_fmap. by apply Hsub.
    + rewrite !length_fmap. lia.
  - intros Hperm. split.
    + apply Permutation_length in Hperm. by rewrite !length_fmap in Hperm.
    + intros c Hc. rewrite <- Hperm. by apply list_elem_of_fmap_2.
Qed.

(** C5: on cells that repeat a cut the code's equality is neither set
    equality nor symmetric. With [x = date:2004] and [y = class:5], the
    cell [[x; x]] equals [[x; y]] although their sets of cuts differ, while
    [[x; y]] does not equal [[x; x]]; and [[x]] does not equal [[x; x]]
    although their sets of cuts are the same. *)
Theorem Cell_eq_not_symmetric :
  let x := Samples.date_2004 in
  let y := Samples.class_5 in
  Cut_eq x y = false
  ∧ Cell_eq {| cuts := [x; x] |} {| cuts := [x; y] |} = true
  ∧ Cell_eq {| cuts := [x; y] |} {| cuts := [x; x] |} = false
  ∧ Cell_eq {| cuts := [x] |} {| cuts := [x; x] |} = false.
Proof. repeat split. Qed.

(** *** rollup_dim *)

Lemma find_point_cut_None (self : Cell) (dim : dimension) :
  (∀ c, c ∈ cuts self → isinstance_PointCut c = true → Cut_dimension c ≠ dim) →
  find_point_cut self dim = None.
Proof.
  intros H. unfold find_point_cut. apply list_find_None.
  apply Forall_forall. intros c Hc [Hp Hd]. by apply (H c).
Qed.

(** C9: on a cell with no point cut for the dimension, [rollup_dim]
    returns -- without an exception, whatever the level and hierarchy
    arguments, and also when range or set cuts for the dimension are
    there -- a cell with the same cuts, equal to the original. *)
Theorem rollup_dim_without_point_cut (md : Metadata) (self : Cell)
    (dim : dimension) (level : option Level)
    (hierarchy : option hierarchy_ref) :
  (∀ c, c ∈ cuts self → isinstance_PointCut c = true → Cut_dimension c ≠ dim) →
  ∃ cell, rollup_dim md self dim level hierarchy = Ok cell
          ∧ cuts cell = cuts self
          ∧ Cell_eq cell self = true ∧ Cell_eq self cell = true.
Proof.
  intros H. unfold rollup_dim. rewrite (find_point_cut_None _ _ H).
  exists (copy_copy self). destruct self as [l]. cbn.
  repeat split; apply (Cell_eq_refl {| cuts := l |}).
Qed.

Lemma rollup_dim_without_point_cut_witness :
  ∃ cell,
    rollup_dim Samples.md {| cuts := [Samples.date_range; Samples.class_5] |}
               (DimName "date") None None = Ok cell
    ∧ cuts cell = [Samples.date_range; Samples.class_5]
    ∧ Cell_eq cell {| cuts := [Samples.date_range; Samples.class_5] |} = true
    ∧ Cell_eq {| cuts := [Samples.date_range; Samples.class_5] |} cell = true.
Proof.
  apply rollup_dim_without_point_cut.
  intros c Hc Hp.
  apply list_elem_of_In in Hc. cbn in Hc.
  destruct Hc as [<-|[<-|[]]]; [discriminate Hp|discriminate].
Defined.

(** *** slice *)

Lemma py_index_Some (dim : dimension) (cs : list Cut) (i : nat) :
  py_index dim (map Cut_dimension cs) = Some i →
  ∃ c0, cs !! i = Some c0 ∧ Cut_dimension c0 = dim
        ∧ ∀ j c', cs !! j = Some c' → j < i → Cut_dimension c' ≠ dim.
Proof.
  unfold py_index. change (map Cut_dimension cs) with (Cut_dimension <$> cs).
  destruct (list_find _ _) as [[k x]|] eqn:Hf; [|done].
  intros [= ->]. apply list_find_Some in Hf as (Hk & -> & Hfirst).
  apply list_lookup_fmap_Some in Hk as (c0 & Hc0 & Hk).
  exists c0. repeat split; [done..|].
  intros j c' Hj Hlt. apply (Hfirst j); [|done].
  by rewrite list_lookup_fmap, Hj.
Qed.

Lemma py_index_None (dim : dimension) (cs : list Cut) :
  py_index dim (map Cut_dimension cs) = None →
  ∀ c', c' ∈ cs → Cut_dimension c' ≠ dim.
Proof.
  unfold py_index. change (map Cut_dimension cs) with (Cut_dimension <$> cs).
  destruct (list_find _ _) as [[k x]|] eqn:Hf; [done|]. intros _.
  apply list_find_None in Hf. rewrite Forall_fmap in Hf.
  intros c' Hc'. by apply (proj1 (Forall_forall _ _) Hf).
Qed.

(** The first cut of the dimension replaced in place, or the cut added at
    the end. *)
Lemma sliced_cases (cs : list Cut) (cut : Cut) :
  (∃ i c0, cs !! i = Some c0 ∧ Cut_dimension c0 = Cut_dimension cut
     ∧ (∀ j c', cs !! j = Some c' → j < i →
                Cut_dimension c' ≠ Cut_dimension cut)
     ∧ sliced cs cut = take i cs ++ cut :: drop (S i) cs)
  ∨ ((∀ c', c' ∈ cs → Cut_dimension c' ≠ Cut_dimension cut)
     ∧ sliced cs cut = cs ++ [cut]).
Proof.
  unfold sliced.
  destruct (py_index _ _) as [i|] eqn:Hi.
  - left. apply py_index_Some in Hi as (c0 & Hc0 & Hd & Hfirst).
    exists i, c0. repeat split; [done..|].
    apply insert_take_drop. by eapply lookup_lt_Some.
  - right. split; [|done]. by apply py_index_None.
Qed.

Lemma heap_lookup_new (h : list (list Cut)) (l : list Cut) :
  (h ++ [l]) !! length h = Some l.
Proof. by apply list_lookup_middle. Qed.

Lemma heap_insert_new (h : list (list Cut)) (l l' : list Cut) :
  <[length h := l']> (h ++ [l]) = h ++ [l'].
Proof.
  rewrite insert_app_r_alt by lia. by rewrite Nat.sub_diag.
Qed.

Ltac unfold_heap :=
  repeat progress
    unfold mbind, mret, Heap.M_bind, Heap.M_ret, Heap.and_then, Heap.ret,
      Heap.list_copy, Heap.read, Heap.alloc, Heap.write;
  cbv beta.

(** [slice] allocates two lists and writes to the first of them only. *)
Lemma heap_slice (h : list (list Cut)) (self : Heap.CellObj) (cs : list Cut)
    (cut : Cut) :
  h !! Heap.cuts_ref self = Some cs →
  Heap.slice self cut h
  = Ok ({| Heap.cuts_ref := S (length h) |},
        (h ++ [sliced cs cut]) ++ [sliced cs cut]).
Proof.
  intros Hself.
  assert (Heap.cuts_ref self < length h) as Hlt by by eapply lookup_lt_Some.
  unfold Heap.slice, Heap._dimension_cut_index. unfold_heap.
  rewrite Hself. rewrite lookup_app_l, Hself by done.
  unfold sliced.
  destruct (py_index _ _) as [i|] eqn:Hi.
  - apply py_index_Some in Hi as (c0 & Hc0 & _).
    apply lookup_lt_Some in Hc0.
    unfold Heap.list_setitem. unfold_heap.
    rewrite heap_lookup_new.
    destruct (Nat.ltb_spec i (length cs)) as [_|?]; [|lia].
    rewrite heap_insert_new.
    unfold Heap.Cell_init. unfold_heap.
    rewrite heap_lookup_new. cbn. by rewrite length_app, Nat.add_1_r.
  - unfold Heap.list_append. unfold_heap.
    rewrite heap_lookup_new, heap_insert_new.
    unfold Heap.Cell_init. unfold_heap.
    rewrite heap_lookup_new. cbn. by rewrite length_app, Nat.add_1_r.
Qed.

(** C8: [slice] returns a new cell object whose list of cuts is the
    receiver's with the first cut of the dimension of [cut] replaced by
    [cut] -- the cuts before and after it kept, in order -- or, when no
    cut has that dimension, with [cut] added at the end; every list
    object that existed before the call, the receiver's among them, is
    left as it was. *)
Theorem slice_replaces_or_appends (h : list (list Cut)) (self : Heap.CellObj)
    (cs : list Cut) (cut : Cut) :
  h !! Heap.cuts_ref self = Some cs →
  ∃ self' h' new,
    Heap.slice self cut h = Ok (self', h')
    ∧ h' !! Heap.cuts_ref self' = Some new
    ∧ Heap.cuts_ref self' ≠ Heap.cuts_ref self
    ∧ (∀ r, r < length h → h' !! r = h !! r)
    ∧ h' !! Heap.cuts_ref self = Some cs
    ∧ ((∃ i c0, cs !! i = Some c0
          ∧ Cut_dimension c0 = Cut_dimension cut
          ∧ (∀ j c', cs !! j = Some c' → j < i →
                     Cut_dimension c' ≠ Cut_dimension cut)
          ∧ new = take i cs ++ cut :: drop (S i) cs)
       ∨ ((∀ c', c' ∈ cs → Cut_dimension c' ≠ Cut_dimension cut)
          ∧ new = cs ++ [cut])).
Proof.
  intros Hself.
  assert (Heap.cuts_ref self < length h) as Hlt by by eapply lookup_lt_Some.
  eexists _, _, _. split; [by apply heap_slice|].
  assert (∀ r new, r < length h → ((h ++ [new]) ++ [new]) !! r = h !! r) as Hold.
  { intros r new Hr. rewrite <- (assoc_L (++)). by rewrite lookup_app_l. }
  cbn [Heap.cuts_ref]. repeat split.
  - apply list_lookup_middle. rewrite length_app. cbn. lia.
  - lia.
  - intros r Hr. by apply Hold.
  - by rewrite Hold.
  - apply sliced_cases.
Qed.

Lemma slice_replaces_or_appends_witness :
  ∃ self' h' new,
    Heap.slice {| Heap.cuts_ref := 0 |} Samples.date_2010
               [[Samples.class_5; Samples.date_2004]]
    = Ok (self', h')
    ∧ h' !! Heap.cuts_ref self' = Some new
    ∧ h' !! 0 = Some [Samples.class_5; Samples.date_2004]
    ∧ ((∃ i c0, [Samples.class_5; Samples.date_2004] !! i = Some c0
          ∧ Cut_dimension c0 = Cut_dimension Samples.date_2010
          ∧ (∀ j c', [Samples.class_5; Samples.date_2004] !! j = Some c' →
                     j < i → Cut_dimension c' ≠ Cut_dimension Samples.date_2010)
          ∧ new = take i [Samples.class_5; Samples.date_2004]
                  ++ Samples.date_2010
                  :: drop (S i) [Samples.class_5; Samples.date_2004])
       ∨ ((∀ c', c' ∈ [Samples.class_5; Samples.date_2004] →
                 Cut_dimension c' ≠ Cut_dimension Samples.date_2010)
          ∧ new = [Samples.class_5; Samples.date_2004] ++ [Samples.date_2010])).
Proof.
  destruct (slice_replaces_or_appends
              [[Samples.class_5; Samples.date_2004]]
              {| Heap.cuts_ref := 0 |}
              [Samples.class_5; Samples.date_2004] Samples.date_2010 eq_refl)
    as (self' & h' & new & Hrun & Hnew & _ & _ & Hself & Hcases).
  exists self', h', new. repeat split; [exact Hrun|exact Hnew|exact Hself|exact Hcases].
Defined.

Example slice_ex :
  Heap.slice {| Heap.cuts_ref := 0 |} Samples.date_2010
             [[Samples.class_5; Samples.date_2004]]
  = Ok ({| Heap.cuts_ref := 2 |},
        [[Samples.class_5; Samples.date_2004];
         [Samples.class_5; Samples.date_2010];
         [Samples.class_5; Samples.date_2010]]).
Proof. reflexivity. Qed.

(** *** rollup *)

Lemma rollup_list_step_Ok (md : Metadata) (cuts_ : list (dimension * Cut))
    (acc acc' : list Cut) (n : string) :
  rollup_list_step md cuts_ acc n = Ok acc' →
  odict_get (DimName n) cuts_ = None ∧ acc' = acc.
Proof.
  unfold rollup_list_step.
  destruct (odict_get _ _) as [cut|]; [|by intros [= ->]].
  destruct cut; cbn; try discriminate;
    unfold mbind, outcome_bind, Py.bind; by destruct (dim_hierarchy _ _ _).
Qed.

Lemma for_each_rollup_list_Ok (md : Metadata) (cuts_ : list (dimension * Cut))
    (l : list string) (acc acc' : list Cut) :
  for_each (rollup_list_step md cuts_) acc l = Ok acc' →
  acc' = acc ∧ ∀ n, n ∈ l → odict_get (DimName n) cuts_ = None.
Proof.
  revert acc. induction l as [|n l IH]; intros acc; cbn.
  - intros [= ->]. split; [done|]. intros n Hn. by apply elem_of_nil in Hn.
  - unfold mbind, outcome_bind, Py.bind.
    destruct (rollup_list_step md cuts_ acc n) as [acc1|] eqn:Hstep; [|done].
    apply rollup_list_step_Ok in Hstep as [Hn ->].
    intros [-> Hl]%IH. split; [done|].
    intros n' [->|Hn']%elem_of_cons; [done|by apply Hl].
Qed.

(** A list roll-up that returns has rolled up nothing: every dimension it
    names is absent from the cell and the result is the empty cell. *)
Lemma rollup_list_only_skips (md : Metadata) (self : Cell) (l : list string)
    (cell : Cell) :
  rollup md self (RollupList l) = Ok cell →
  cuts cell = []
  ∧ ∀ n, n ∈ l → odict_get (DimName n) (cuts_by_dimension self) = None.
Proof.
  unfold rollup, mbind, outcome_bind, Py.bind.
  destruct (for_each _ _ _) as [acc|] eqn:Hfor; [|done].
  apply for_each_rollup_list_Ok in Hfor as [-> Habs].
  by intros [= <-].
Qed.

(** C2: [rollup] does not support point cuts. For the cell holding
    [date:2004,1] and the dimension named [date], the list form and the
    string form raise [NotImplementedError] -- the [isinstance] test guards
    the wrong case -- and the dictionary form raises [ArgumentError], as it
    does on every dictionary: the branch for dictionaries tests the type of
    [self.drilldown]. *)
Theorem rollup_rejects_point_cuts (md : Metadata) :
  let cell := {| cuts := [Samples.date_2004_1] |} in
  rollup md cell (RollupList ["date"])
  = Err (NotImplementedError "Only PointCuts are currently supported for roll-up")
  ∧ rollup md cell (RollupStr "date")
    = Err (NotImplementedError "Only PointCuts are currently supported for roll-up")
  ∧ rollup md cell (RollupDict [("date", "year")])
    = Err (ArgumentError "Rollup is of unknown type")
  ∧ rollup md {| cuts := [Samples.date_range] |} (RollupList ["date"])
    = Err (AttributeError "hierarchy")
  ∧ rollup md cell (RollupList ["class"]) = Ok {| cuts := [] |}.
Proof. repeat split. Qed.

(** *** deepest_levels *)

Lemma deepest_levels_step_Ok (md : Metadata) (include_empty : bool)
    (item0 item1 : option level_item) (acc acc' : list level_item) (cut : Cut) :
  include_empty = true ∨ nonzero_depth cut →
  deepest_levels_step md include_empty (item0, acc) cut = Ok (item1, acc') →
  ∃ item, acc' = acc ++ [item] ∧ deepest_item md cut item.
Proof.
  intros Hcase. unfold deepest_levels_step, deepest_item.
  unfold mbind, outcome_bind, Py.bind.
  destruct (level_depth cut) as [depth|] eqn:Hdepth; [|done].
  destruct (dim_hierarchy _ _ _) as [hier|]; [|done].
  destruct depth as [[|n]|].
  - destruct Hcase as [->|[n Hn]]; [|congruence].
    intros [= <- <-]. eexists. split; [done|]. by eexists _, _.
  - destruct (levels hier !! n) as [level|] eqn:Hlevel; [|done].
    intros [= <- <-]. eexists. split; [done|].
    eexists _, _. repeat split. by eexists.
  - destruct Hcase as [->|[n Hn]]; [|congruence].
    intros [= <- <-]. eexists. split; [done|]. by eexists _, _.
Qed.

Lemma for_each_deepest_levels (md : Metadata) (include_empty : bool)
    (l : list Cut) (st st' : option level_item * list level_item) :
  include_empty = true ∨ Forall nonzero_depth l →
  for_each (deepest_levels_step md include_empty) st l = Ok st' →
  ∃ items, st'.2 = st.2 ++ items ∧ Forall2 (deepest_item md) l items.
Proof.
  revert st. induction l as [|cut l IH]; intros [item0 acc] Hcase; cbn [for_each].
  - intros [= <-]. exists []. by rewrite app_nil_r.
  - assert (include_empty = true ∨ nonzero_depth cut) as Hcut.
    { destruct Hcase as [?|Hall%Forall_cons_1]; [by left|right; apply Hall]. }
    assert (include_empty = true ∨ Forall nonzero_depth l) as Hl.
    { destruct Hcase as [?|Hall%Forall_cons_1]; [by left|right; apply Hall]. }
    unfold mbind, outcome_bind, Py.bind.
    destruct (deepest_levels_step _ _ _ _) as [[item1 acc1]|] eqn:Hstep; [|done].
    apply deepest_levels_step_Ok in Hstep as (item & -> & Hitem); [|done].
    intros Hfor. apply IH in Hfor as (items & -> & Hitems); [|done].
    exists (item :: items). cbn. rewrite <- (assoc_L (++)).
    split; [done|by constructor].
Qed.

(** Where [include_empty] is true, or every cut has a path, a call that
    returns gives one triple per cut, in order. *)
Lemma deepest_levels_one_per_cut (md : Metadata) (self : Cell)
    (include_empty : bool) (items : list level_item) :
  include_empty = true ∨ Forall nonzero_depth (cuts self) →
  deepest_levels md self include_empty = Ok items →
  Forall2 (deepest_item md) (cuts self) items.
Proof.
  intros Hcase. unfold deepest_levels, mbind, outcome_bind, Py.bind.
  destruct (for_each _ _ _) as [st'|] eqn:Hfor; [|done].
  apply for_each_deepest_levels in Hfor as (items' & Heq & Hitems); [|done].
  intros [= <-]. by rewrite Heq.
Qed.

(** C7: with [include_empty] false a cut with an empty path is not left
    out. After the cut [date:2004] the cut of [item] with the empty path
    adds the triple of [date] a second time -- two triples, none for
    [item] dropped; as the first cut of a cell it raises
    [UnboundLocalError]. With [include_empty] true it adds its triple with
    no level. *)
Theorem deepest_levels_keeps_empty_cuts :
  let date := (DimObj Samples.date_dim, Samples.ymd, Some Samples.year) in
  deepest_levels Samples.md
    {| cuts := [Samples.date_obj_2004; Samples.item_obj_all] |} false
  = Ok [date; date]
  ∧ deepest_levels Samples.md {| cuts := [Samples.item_obj_all] |} false
    = Err (UnboundLocalError "item")
  ∧ deepest_levels Samples.md
      {| cuts := [Samples.date_obj_2004; Samples.item_obj_all] |} true
    = Ok [date; (DimObj Samples.item_dim, Samples.item_hier, None)].
Proof. repeat split. Qed.

End CellFacts.

(** ** The aggregation browser *)

Module BrowserFacts.
Import Cells Browser.

Section Guard.
Context {Statement Drilldown Order Levels Attribute : Type}.
Implicit Types (ext : @External Statement Drilldown Order Levels Attribute).

Ltac unfold_db :=
  unfold mbind, mret, DB_bind, DB_ret, db_bind, db_ret, lift, execute in *.





End Guard.



(** *** The result iterator *)

(** Once [exclude_if_null] is set, the first row popped ends the iteration
    with [AttributeError]. *)
Lemma next_raises_when_excluding (self : ResultIterator) (r : row)
    (b : list row) :
  truthy_path (exclude_if_null self) = true →
  batch self = r :: b →
  next self
  = (Raise (AttributeError "exclude_if_nul"), with_state self (result self) b).
Proof.
  intros Hex Hb. unfold next. rewrite Hb.
  destruct (result self); cbn; unfold skip_row; by rewrite Hex.
Qed.

(** C4: null-exclusion does not drop rows. On an iterator whose
    [exclude_if_null] names the aggregate, the first resumption raises
    [AttributeError] ([self.exclude_if_nul]) and no record is yielded:
    the row whose aggregate is null is not dropped, and the row after it is
    not yielded. *)
Theorem null_exclusion_drops_nothing :
  fst (next Samples.excluding) = Raise (AttributeError "exclude_if_nul")
  ∧ to_list Samples.excluding = ([], Some (AttributeError "exclude_if_nul")).
Proof. split; reflexivity. Qed.

End BrowserFacts.

(** ** More on the codec *)

Module CodecProps.
Import Re Cells Spec CodecFacts.

Lemma append_nil_r (s : string) : s +:+ "" = s.
Proof. induction s as [|c s IH]; [done|]. by rewrite append_cons_l, IH. Qed.

Lemma append_assoc (s t u : string) : (s +:+ t) +:+ u = s +:+ (t +:+ u).
Proof. induction s as [|c s IH]; [done|]. by rewrite !append_cons_l, IH. Qed.

(** *** Splitting and joining *)

Lemma split_from_nonempty (sep : ascii) (prev : option ascii) (s : string) :
  split_from sep prev s ≠ [].
Proof.
  destruct s as [|c rest]; [done|]. cbn [split_from].
  destruct (_ && _); [done|]. by destruct (split_from _ _ _).
Qed.

Lemma concat_cons_char (sep : string) (c : ascii) (piece : string)
    (more : list string) :
  String.concat sep (String c piece :: more)
  = String c (String.concat sep (piece :: more)).
Proof. by destruct more. Qed.

Lemma concat_cons2 (sep x y : string) (l : list string) :
  String.concat sep (x :: y :: l) = x +:+ sep +:+ String.concat sep (y :: l).
Proof. reflexivity. Qed.

Lemma concat_split_from (sep : ascii) (prev : option ascii) (s : string) :
  String.concat (String sep "") (split_from sep prev s) = s.
Proof.
  revert prev. induction s as [|c rest IH]; intros prev; [done|].
  cbn [split_from]. destruct (Ascii.eqb_spec c sep) as [->|Hne]; cbn [andb].
  - destruct (negb _).
    + specialize (IH (Some sep)).
      destruct (split_from sep (Some sep) rest) as [|piece more] eqn:Hs.
      { by apply split_from_nonempty in Hs. }
      by rewrite concat_cons2, IH.
    + specialize (IH (Some sep)).
      destruct (split_from sep (Some sep) rest) as [|piece more] eqn:Hs.
      { by apply split_from_nonempty in Hs. }
      by rewrite concat_cons_char, IH.
  - specialize (IH (Some c)).
    destruct (split_from sep (Some c) rest) as [|piece more] eqn:Hs.
    { by apply split_from_nonempty in Hs. }
    by rewrite concat_cons_char, IH.
Qed.

(** X1: for each of the five separators of the grammar, splitting a
    string gives at least one piece, and joining the pieces with the
    separator gives the string back. *)
Theorem join_split (s : string) :
  (CUT_STRING_SEPARATOR s ≠ []
   ∧ String.concat CUT_STRING_SEPARATOR_CHAR (CUT_STRING_SEPARATOR s) = s)
  ∧ (DIMENSION_STRING_SEPARATOR s ≠ []
     ∧ String.concat DIMENSION_STRING_SEPARATOR_CHAR
         (DIMENSION_STRING_SEPARATOR s) = s)
  ∧ (PATH_STRING_SEPARATOR s ≠ []
     ∧ String.concat PATH_STRING_SEPARATOR_CHAR (PATH_STRING_SEPARATOR s) = s)
  ∧ (RANGE_CUT_SEPARATOR s ≠ []
     ∧ String.concat RANGE_CUT_SEPARATOR_CHAR (RANGE_CUT_SEPARATOR s) = s)
  ∧ (SET_CUT_SEPARATOR s ≠ []
     ∧ String.concat SET_CUT_SEPARATOR_CHAR (SET_CUT_SEPARATOR s) = s).
Proof.
  repeat split; (apply split_from_nonempty || apply concat_split_from).
Qed.

(** X2: [path_from_string] gives the empty path for the empty string and
    for no other string. *)
Theorem path_from_string_empty (s : string) :
  path_from_string s = [] ↔ s = "".
Proof.
  unfold path_from_string. destruct (String.eqb_spec s "") as [->|Hne]; [done|].
  split; [|done]. intros H%map_eq_nil.
  by apply split_from_nonempty in H.
Qed.

Lemma path_from_string_empty_witness : path_from_string "" = [].
Proof. apply (path_from_string_empty ""). reflexivity. Defined.

(** *** Escaped parts *)

(** X3: unescaping an escaped part gives the part back -- a string other
    than the token [__null__], or [None]. *)
Theorem part_roundtrip (part : option string) :
  part ≠ Some NULL_PATH_VALUE →
  _path_part_unescape (_path_part_escape part) = part.
Proof.
  destruct part as [e|]; [|done].
  intros He. apply unescape_escape_part. congruence.
Qed.

Lemma part_roundtrip_witness :
  _path_part_unescape (_path_part_escape (Some "a,b\-c")) = Some "a,b\-c".
Proof. apply part_roundtrip. discriminate. Defined.

(** *** What the patterns accept *)

Lemma accepts_alt_opt (o1 o2 : option regex) (s : string) :
  (∀ a b, accepts (Alt a b) s = accepts a s || accepts b s) →
  accepts_opt (alt_opt o1 o2) s = accepts_opt o1 s || accepts_opt o2 s.
Proof.
  intros H. destruct o1 as [a|], o2 as [b|]; cbn; [apply H| |done..].
  by rewrite orb_false_r.
Qed.

Lemma accepts_Alt (a b : regex) (s : string) :
  accepts (Alt a b) s = accepts a s || accepts b s.
Proof.
  revert a b. induction s as [|c s IH]; intros a b; [done|].
  cbn [accepts deriv].
  change (match alt_opt (deriv c a) (deriv c b) with
          | Some r' => accepts r' s
          | None => false
          end) with (accepts_opt (alt_opt (deriv c a) (deriv c b)) s).
  by rewrite accepts_alt_opt.
Qed.

Lemma accepts_opt_alt (o1 o2 : option regex) (s : string) :
  accepts_opt (alt_opt o1 o2) s = accepts_opt o1 s || accepts_opt o2 s.
Proof. apply accepts_alt_opt. intros. apply accepts_Alt. Qed.

Lemma accepts_step (r : regex) (c : ascii) (s : string) :
  accepts r (String c s) = accepts_opt (deriv c r) s.
Proof. reflexivity. Qed.

Lemma accepts_Seq_Eps (r : regex) (s : string) :
  accepts (Seq Eps r) s = accepts r s.
Proof. destruct s as [|c s]; [done|]. rewrite !accepts_step. by cbn. Qed.

Lemma escapable_cases (c : ascii) :
  escapable c = true →
  c ∈ ["\"; "!"; "|"; ":"; ";"; ","; "-"]%char.
Proof.
  unfold escapable, char_in. intros (d & Hd & Heq)%existsb_exists.
  apply Ascii.eqb_eq in Heq as ->. by apply list_elem_of_In.
Qed.

Lemma not_escapable_plain (c : ascii) :
  escapable c = false →
  deriv c PATH_ELEMENT = Some (Seq Eps PATH_ELEMENT).
Proof.
  intros Hc. unfold PATH_ELEMENT. cbn [deriv nullable].
  rewrite (not_escapable_neq c backslash Hc eq_refl).
  assert (char_in [":"; ";"; "|"; "-"]%char c = false) as ->; [|done].
  cbn. unfold escapable, char_in in Hc. cbn in Hc.
  repeat (apply orb_false_elim in Hc as [? Hc]).
  by repeat (apply orb_false_intro; [done|]).
Qed.

Ltac eval_deriv :=
  match goal with
  | |- accepts_opt ?d _ = _ =>
      let d' := eval vm_compute in d in
      change d with d'; cbn [accepts_opt]
  end.

(** An escaped part, and whatever the pattern accepts after it, is
    accepted. *)
Lemma accepts_escape_app (e t : string) :
  accepts PATH_ELEMENT t = true →
  accepts PATH_ELEMENT (escape_sub e +:+ t) = true.
Proof.
  intros Ht. induction e as [|c e IH]; [done|].
  cbn [escape_sub]. destruct (escapable c) eqn:Hc.
  - rewrite !append_cons_l.
    assert (accepts_opt (Some (Seq Eps PATH_ELEMENT)) (escape_sub e +:+ t) = true)
      as Hnext by (cbn [accepts_opt]; by rewrite accepts_Seq_Eps).
    apply escapable_cases in Hc. clear Hnext.
    unfold PATH_ELEMENT, backslash in *.
    repeat (apply elem_of_cons in Hc as [->|Hc];
            [rewrite accepts_step; eval_deriv; rewrite accepts_step; eval_deriv;
             rewrite ?accepts_Alt, ?accepts_Seq_Eps, IH; by rewrite ?orb_true_r|]).
    by apply elem_of_nil in Hc.
  - rewrite append_cons_l, accepts_step, (not_escapable_plain _ Hc).
    cbn [accepts_opt]. by rewrite accepts_Seq_Eps.
Qed.

Lemma accepts_escape (e : string) : accepts PATH_ELEMENT (escape_sub e) = true.
Proof. rewrite <- (append_nil_r (escape_sub e)). by apply accepts_escape_app. Qed.

Lemma accepts_join (parts : list string) :
  accepts PATH_ELEMENT
    (String.concat PATH_STRING_SEPARATOR_CHAR (map escape_sub parts)) = true.
Proof.
  induction parts as [|e [|e' parts] IH]; [done|apply accepts_escape|].
  cbn [map] in *. rewrite concat_cons2. apply accepts_escape_app.
  change (PATH_STRING_SEPARATOR_CHAR +:+ ?u) with (String ","%char u).
  rewrite accepts_step. cbn [deriv PATH_ELEMENT nullable seq_opt alt_opt
    Ascii.eqb Bool.eqb char_in existsb orb andb accepts_opt backslash].
  by rewrite accepts_Seq_Eps.
Qed.

(** X4: [string_from_path] never logs its warning, and what it returns is
    accepted by the point pattern: every escaped element matches
    [RE_ELEMENT], and the joined string matches [RE_POINT]. *)
Theorem string_from_path_is_point (path : option HierarchyPath) :
  string_from_path_warns path = false
  ∧ RE_POINT (string_from_path path) = true.
Proof.
  split.
  - unfold string_from_path_warns. destruct (truthy_path path); [|done].
    cbn [andb]. apply negb_false_iff, forallb_forall.
    intros x (e & <- & _)%in_map_iff. unfold RE_ELEMENT, anchored_match.
    cbn [_path_part_escape]. by rewrite accepts_escape.
  - unfold string_from_path, RE_POINT, anchored_match.
    destruct (truthy_path path); cbn [negb]; [|done].
    rewrite <- (map_map py_str escape_sub). cbn [_path_part_escape].
    by rewrite accepts_join.
Qed.

(** *** Separators inside encodings *)

Lemma split_unsplit (sep : ascii) (prev : option ascii) (s : string) :
  unsplit sep prev s = true → split_from sep prev s = [s].
Proof.
  revert prev. induction s as [|c s IH]; intros prev; [done|].
  cbn [unsplit split_from]. intros [Hc Hs]%andb_true_iff.
  apply negb_true_iff in Hc. rewrite Hc. by rewrite IH.
Qed.

Lemma unsplit_app (sep : ascii) (prev : option ascii) (s t : string) :
  unsplit sep prev (s +:+ t) = unsplit sep prev s && unsplit sep (final prev s) t.
Proof.
  revert prev. induction s as [|c s IH]; intros prev; [done|].
  rewrite append_cons_l. cbn [unsplit final]. by rewrite IH, andb_assoc.
Qed.

Lemma unsplit_escape (sep : ascii) (prev : option ascii) (e : string) :
  escapable sep = true → sep ≠ backslash →
  unsplit sep prev (escape_sub e) = true.
Proof.
  intros Hsep Hbs. revert prev. induction e as [|c e IH]; intros prev; [done|].
  cbn [escape_sub]. destruct (escapable c) eqn:Hc; cbn [unsplit].
  - destruct (Ascii.eqb_spec backslash sep) as [Heq|_]; [congruence|].
    rewrite Ascii.eqb_refl, andb_false_r. cbn. apply IH.
  - rewrite (not_escapable_neq c sep Hc Hsep). cbn. apply IH.
Qed.

Lemma unsplit_char (sep c : ascii) (prev : option ascii) (s : string) :
  c ≠ sep → unsplit sep prev (String c s) = unsplit sep (Some c) s.
Proof.
  intros Hne. cbn [unsplit].
  by destruct (Ascii.eqb_spec c sep) as [?|_].
Qed.

Lemma unsplit_concat (sep : ascii) (j : ascii) (parts : list string) :
  j ≠ sep → (∀ prev x, x ∈ parts → unsplit sep prev x = true) →
  ∀ prev, unsplit sep prev (String.concat (String j "") parts) = true.
Proof.
  intros Hj. induction parts as [|x [|y parts] IH]; intros Hparts prev; [done|..].
  - apply Hparts. by left.
  - rewrite concat_cons2, unsplit_app, Hparts by by left. cbn [andb].
    rewrite append_cons_l, append_nil_l, unsplit_char by done.
    apply IH. intros prev' z Hz. apply Hparts. by right.
Qed.

Lemma unsplit_string_from_path (sep : ascii) (prev : option ascii)
    (path : option HierarchyPath) :
  escapable sep = true → sep ≠ backslash → sep ≠ ","%char →
  unsplit sep prev (string_from_path path) = true.
Proof.
  intros Hsep Hbs Hcomma. unfold string_from_path.
  destruct (truthy_path path); cbn [negb]; [|done].
  apply unsplit_concat; [done|].
  intros prev' x (e & <- & _)%list_elem_of_In%in_map_iff.
  by apply unsplit_escape.
Qed.

(** X5: the encoding of a path is one piece for the cut, dimension, set
    and range separators: none of them occurs in it unescaped. *)
Theorem string_from_path_one_piece (path : option HierarchyPath) :
  CUT_STRING_SEPARATOR (string_from_path path) = [string_from_path path]
  ∧ DIMENSION_STRING_SEPARATOR (string_from_path path) = [string_from_path path]
  ∧ SET_CUT_SEPARATOR (string_from_path path) = [string_from_path path]
  ∧ RANGE_CUT_SEPARATOR (string_from_path path) = [string_from_path path].
Proof.
  repeat split; apply split_unsplit, unsplit_string_from_path; done.
Qed.

(** A separator after a string that holds none and does not end in a
    backslash cuts there. *)
Lemma split_at_separator (sep : ascii) (prev : option ascii) (s t : string) :
  unsplit sep prev s = true → final prev s ≠ Some backslash →
  split_from sep prev (s +:+ String sep t) = s :: split_from sep (Some sep) t.
Proof.
  revert prev. induction s as [|c s IH]; intros prev.
  - intros _ Hfin. cbn in Hfin. rewrite append_nil_l. cbn [split_from].
    rewrite Ascii.eqb_refl. cbn [andb].
    destruct prev as [p|]; [|done].
    by destruct (Ascii.eqb_spec p backslash) as [->|_].
  - cbn [unsplit final]. intros [Hc Hs]%andb_true_iff Hfin.
    apply negb_true_iff in Hc. rewrite append_cons_l. cbn [split_from].
    by rewrite Hc, IH.
Qed.

Lemma final_app (prev : option ascii) (s t : string) :
  final prev (s +:+ t) = final (final prev s) t.
Proof.
  revert prev. induction s as [|c s IH]; intros prev; [done|].
  rewrite append_cons_l. cbn [final]. apply IH.
Qed.

Lemma string_from_hierarchy_unsplit (sep : ascii) (prev : option ascii)
    (d : dimension) (h : option hierarchy_ref) (dim_str : string) :
  escapable sep = true → sep ≠ backslash →
  string_from_hierarchy d h = Ok dim_str →
  unsplit sep prev dim_str = true.
Proof.
  intros Hsep Hbs. unfold string_from_hierarchy.
  assert (∀ p, escape_dimension d = Ok dim_str → unsplit sep p dim_str = true)
    as Hdim.
  { intros p. destruct d; [|done]. intros [= <-]. by apply unsplit_escape. }
  destruct (truthy_hierarchy h); [|apply Hdim].
  destruct h as [h|]; [|apply Hdim].
  destruct d as [dn|]; [|done]. destruct h as [hn|]; [|done]. cbn.
  intros [= <-]. rewrite unsplit_app, unsplit_escape by done. cbn [andb].
  rewrite append_cons_l, append_nil_l, unsplit_char.
  - by apply unsplit_escape.
  - intros <-. discriminate Hsep.
Qed.

Lemma Cut_str_payload (c : Cut) (s dim_str : string) :
  Cut_str c = Ok s →
  string_from_hierarchy (Cut_dimension c) (Cut_hierarchy c) = Ok dim_str →
  ∃ payload,
    s = (invert_prefix (Cut_invert c) +:+ dim_str) +:+ String ":"%char payload
    ∧ ∀ prev, unsplit ":"%char prev payload = true.
Proof.
  intros Hstr Hdim.
  destruct c as [d path h i hid|d f t h i hid|d ps h i hid];
    cbn [Cut_str Cut_dimension Cut_hierarchy Cut_invert] in *;
    unfold mbind, outcome_bind, Py.bind in Hstr; rewrite Hdim in Hstr;
    injection Hstr as <-; eexists;
    (split; [by rewrite append_assoc|]); intros prev.
  - by apply unsplit_string_from_path.
  - rewrite unsplit_app.
    assert (∀ p q, unsplit ":"%char p
              (if truthy_path q then string_from_path q
               else string_from_path (Some [])) = true) as Hside.
    { intros p q. destruct (truthy_path q); by apply unsplit_string_from_path. }
    rewrite Hside. cbn [andb].
    change (RANGE_CUT_SEPARATOR_CHAR +:+ ?u) with (String "-"%char u).
    rewrite unsplit_char by done. apply Hside.
  - apply unsplit_concat; [done|].
    intros prev' x (p & <- & _)%list_elem_of_In%in_map_iff.
    by apply unsplit_string_from_path.
Qed.

(** X6: the string of a cut splits at the dimension separator into exactly
    two pieces, the dimension spec (with its [!] when inverted) and the
    payload, as long as the dimension spec does not end in a backslash. *)
Theorem Cut_str_splits (c : Cut) (s dim_str : string) :
  Cut_str c = Ok s →
  string_from_hierarchy (Cut_dimension c) (Cut_hierarchy c) = Ok dim_str →
  ¬ ends_with_backslash dim_str →
  ∃ payload,
    s = (invert_prefix (Cut_invert c) +:+ dim_str) +:+ ":" +:+ payload
    ∧ DIMENSION_STRING_SEPARATOR s
      = [invert_prefix (Cut_invert c) +:+ dim_str; payload].
Proof.
  intros Hstr Hdim Hend.
  destruct (Cut_str_payload c s dim_str Hstr Hdim) as (payload & -> & Hpay).
  exists payload. split; [done|].
  unfold DIMENSION_STRING_SEPARATOR, split.
  rewrite split_at_separator.
  - by rewrite split_unsplit.
  - rewrite unsplit_app.
    rewrite (string_from_hierarchy_unsplit ":"%char _ _ _ _ eq_refl ltac:(done) Hdim).
    by destruct (Cut_invert c).
  - rewrite final_app. apply final_not_backslash; [|done].
    by destruct (Cut_invert c).
Qed.

Lemma Cut_str_splits_witness :
  ∃ payload,
    "!date:2004;2010" = (invert_prefix true +:+ "date") +:+ ":" +:+ payload
    ∧ DIMENSION_STRING_SEPARATOR "!date:2004;2010"
      = [invert_prefix true +:+ "date"; payload].
Proof.
  apply (Cut_str_splits Samples.hidden_set "!date:2004;2010" "date");
    [reflexivity|reflexivity|discriminate].
Defined.

(** *** Dimension specs *)

Lemma word_not_escapable (c : ascii) : is_word c = true → escapable c = false.
Proof.
  intros Hw. destruct (escapable c) eqn:Hc; [|done].
  apply escapable_cases in Hc.
  repeat (apply elem_of_cons in Hc as [->|Hc]; [discriminate Hw|]).
  by apply elem_of_nil in Hc.
Qed.

Lemma escape_sub_word (w : string) : all_word w = true → escape_sub w = w.
Proof.
  induction w as [|c w IH]; [done|]. cbn [all_word escape_sub].
  intros [Hc Hw]%andb_true_iff. by rewrite (word_not_escapable _ Hc), IH.
Qed.

Lemma span_word_app (w t : string) :
  all_word w = true →
  match t with String c _ => is_word c = false | EmptyString => True end →
  span_word (w +:+ t) = (w, t).
Proof.
  intros Hw Ht. induction w as [|c w IH].
  - rewrite append_nil_l. destruct t as [|c t]; [done|]. cbn. by rewrite Ht.
  - cbn [all_word] in Hw. apply andb_true_iff in Hw as [Hc Hw].
    rewrite append_cons_l. cbn [span_word]. by rewrite Hc, IH.
Qed.

Lemma word_and_hier_plain (d : string) :
  word d → word_and_hier d = Some (d, None).
Proof.
  intros [Hne Hw]. unfold word_and_hier.
  pose proof (span_word_app d "" Hw I) as Hspan.
  rewrite append_nil_r in Hspan. rewrite Hspan. by destruct d.
Qed.

Lemma word_and_hier_at (d h : string) :
  word d → word h → word_and_hier (d +:+ "@" +:+ h) = Some (d, Some h).
Proof.
  intros [Hd Hwd] [Hh Hwh]. unfold word_and_hier.
  rewrite span_word_app by done.
  pose proof (span_word_app h "" Hwh I) as Hspan.
  rewrite append_nil_r in Hspan.
  destruct d as [|a d]; [done|]. change ("@" +:+ h) with (String "@"%char h).
  cbn [Ascii.eqb Bool.eqb]. rewrite Hspan. by destruct h.
Qed.

Lemma dim_hier_pattern_invert (inv : bool) (spec : string) (r : string * option string) :
  word_and_hier spec = Some r →
  match spec with String c _ => is_word c = true | EmptyString => False end →
  dim_hier_pattern (invert_prefix inv +:+ spec)
  = Some (if inv then Some "!" else None, r.1, r.2).
Proof.
  intros Hr Hfirst. destruct r as [dim hier]. destruct inv.
  - change (invert_prefix true +:+ spec) with (String "!"%char spec).
    unfold dim_hier_pattern. cbn [Ascii.eqb Bool.eqb]. by rewrite Hr.
  - change (invert_prefix false +:+ spec) with spec.
    destruct spec as [|c spec]; [done|]. unfold dim_hier_pattern.
    destruct (Ascii.eqb_spec c "!"%char) as [->|_]; [discriminate Hfirst|].
    by rewrite Hr.
Qed.

(** X7: the dimension spec of a cut whose dimension and hierarchy are
    names made of word characters is read back by the decoder's pattern:
    the [invert] group is there exactly when the cut is inverted, and the
    [dim] and [hier] groups are the two names. *)
Theorem dim_hier_pattern_roundtrip (inv : bool) (d : string)
    (h : option string) :
  word d → (∀ hn, h = Some hn → word hn) →
  ∃ spec,
    string_from_hierarchy (DimName d) (HierName <$> h) = Ok spec
    ∧ dim_hier_pattern (invert_prefix inv +:+ spec)
      = Some (if inv then Some "!" else None, d, h).
Proof.
  intros Hd Hh.
  assert (match d with String c _ => is_word c = true | _ => False end) as Hfirst.
  { destruct Hd as [Hne Hw]. destruct d as [|c d]; [done|].
    cbn in Hw. by apply andb_true_iff in Hw as [? _]. }
  destruct h as [hn|]; cbn [fmap option_fmap option_map].
  - destruct (Hh hn eq_refl) as [Hne Hw].
    unfold string_from_hierarchy. cbn [truthy_hierarchy].
    destruct (String.eqb_spec hn "") as [?|_]; [done|]. cbn.
    rewrite !escape_sub_word by (done || apply Hd).
    eexists. split; [reflexivity|].
    rewrite (dim_hier_pattern_invert inv _ (d, Some hn)); [done| |].
    + by apply word_and_hier_at.
    + destruct d; [done|]. by rewrite append_cons_l.
  - cbn. rewrite escape_sub_word by apply Hd.
    eexists. split; [reflexivity|].
    rewrite (dim_hier_pattern_invert inv _ (d, None)); [done| |done].
    by apply word_and_hier_plain.
Qed.

Lemma dim_hier_pattern_roundtrip_witness :
  ∃ spec,
    string_from_hierarchy (DimName "date") (HierName <$> Some "dqmy") = Ok spec
    ∧ dim_hier_pattern (invert_prefix true +:+ spec)
      = Some (Some "!", "date", Some "dqmy").
Proof.
  apply (dim_hier_pattern_roundtrip true "date" (Some "dqmy")).
  - split; [discriminate|reflexivity].
  - intros hn [= <-]. split; [discriminate|reflexivity].
Defined.

End CodecProps.

(** ** More on cuts *)

Module CutProps.
Import Re Cells Spec CodecFacts CodecProps DecodeFacts DictFacts.

(** X8: [cuts_from_string] returns on the empty string only, and then
    the empty list: on any other string the first cut string is handed to
    [cut_from_string]. *)
Theorem cuts_from_string_returns (md : Metadata) (cube : option Cube)
    (s : string) (mc rmc : option (gmap string MemberConverter))
    (cuts_ : list Cut) :
  cuts_from_string md cube s mc rmc = Ok cuts_ ↔ s = "" ∧ cuts_ = [].
Proof.
  unfold cuts_from_string.
  destruct (String.eqb_spec s "") as [->|Hne].
  { split; [by intros [= <-]|by intros [_ ->]]. }
  split; [|by intros [? _]]. unfold CUT_STRING_SEPARATOR, split.
  destruct (split_from _ _ s) as [|piece more] eqn:Hs.
  { by apply split_from_nonempty in Hs. }
  cbn [mapM]. unfold mbind at 1, outcome_bind, Py.bind.
  assert (is_ok (cut_from_string md piece cube mc rmc) = false) as Hpiece.
  { destruct cube; [apply cut_from_string_with_cube
                   |apply cut_from_string_without_cube]. }
  by destruct (cut_from_string md piece cube mc rmc).
Qed.

Lemma cuts_from_string_returns_witness :
  cuts_from_string Samples.md None "" None None = Ok [].
Proof.
  apply (cuts_from_string_returns Samples.md None "" None None []).
  split; reflexivity.
Defined.

(** X9: [to_dict] raises on a set cut without paths ([max] of an empty
    list) and returns a dictionary on every other cut. *)
Theorem to_dict_raises (c : Cut) :
  is_ok (to_dict c) = false
  ↔ ∃ d h i hid, c = SetCut d [] h i hid.
Proof.
  unfold to_dict, Cut_to_dict_base, mbind, outcome_bind, Py.bind.
  destruct c as [d p h i hid|d f t h i hid|d ps h i hid].
  - cbn. split; [done|]. by intros (? & ? & ? & ? & [=]).
  - cbn. split.
    + by repeat case_match.
    + by intros (? & ? & ? & ? & [=]).
  - destruct ps as [|p ps]; cbn.
    + split; [eauto 10|done].
    + split; [done|]. by intros (? & ? & ? & ? & [=]).
Qed.

Lemma to_dict_raises_witness :
  is_ok (to_dict (SetCut (DimName "date") [] None false false)) = false.
Proof.
  apply (to_dict_raises (SetCut (DimName "date") [] None false false)).
  eexists _, _, _, _. reflexivity.
Defined.

(** X10: cut equality is an equivalence that sees neither the hierarchy nor
    the hidden flag of a cut: two cuts are equal exactly when they agree
    once both attributes are erased. *)
Theorem Cut_eq_equivalence :
  (∀ a b, Cut_eq a b = true ↔ bare a = bare b)
  ∧ (∀ a, Cut_eq a a = true)
  ∧ (∀ a b, Cut_eq a b = Cut_eq b a)
  ∧ (∀ a b c, Cut_eq a b = true → Cut_eq b c = true → Cut_eq a c = true).
Proof.
  assert (∀ a b, Cut_eq a b = true ↔ bare a = bare b) as Hbare.
  { intros a b. destruct a, b; cbn; split; try discriminate;
      repeat (case_bool_decide; cbn; try discriminate); try congruence;
      intros [=]; congruence. }
  split; [done|]. split; [apply Cut_eq_refl|]. split.
  - intros a b. destruct (Cut_eq a b) eqn:Hab, (Cut_eq b a) eqn:Hba; try done.
    + apply Hbare in Hab. symmetry in Hab. apply Hbare in Hab. congruence.
    + apply Hbare in Hba. symmetry in Hba. apply Hbare in Hba. congruence.
  - intros a b c Hab%Hbare Hbc%Hbare. apply Hbare. congruence.
Qed.

Lemma Cut_eq_equivalence_witness :
  Cut_eq Samples.date_2004
    (PointCut (DimName "date") [Some "2004"] (Some (HierName "ymd")) false true)
  = true.
Proof.
  apply (proj1 Cut_eq_equivalence Samples.date_2004
           (PointCut (DimName "date") [Some "2004"] (Some (HierName "ymd"))
              false true)).
  reflexivity.
Defined.

(** *** The string of a cell *)

Lemma Cut_str_one_piece (c : Cut) (s : string) (prev : option ascii) :
  Cut_str c = Ok s → unsplit "|"%char prev s = true.
Proof.
  intros Hstr.
  destruct (string_from_hierarchy (Cut_dimension c) (Cut_hierarchy c))
    as [dim_str|e] eqn:Hdim.
  2: { destruct c; cbn [Cut_str Cut_dimension Cut_hierarchy] in *;
       unfold mbind, outcome_bind, Py.bind in Hstr; by rewrite Hdim in Hstr. }
  assert (∀ p, unsplit "|"%char p dim_str = true) as Hd.
  { intros p. by eapply string_from_hierarchy_unsplit. }
  assert (∀ p q, unsplit "|"%char p (string_from_path q) = true) as Hp.
  { intros p q. by apply unsplit_string_from_path. }
  destruct c as [d path h i hid|d f t h i hid|d ps h i hid];
    cbn [Cut_str Cut_dimension Cut_hierarchy] in *;
    unfold mbind, outcome_bind, Py.bind in Hstr; rewrite Hdim in Hstr;
    injection Hstr as <-; do 2 rewrite unsplit_app; rewrite Hd;
    (replace (unsplit "|"%char prev (invert_prefix i)) with true
       by by destruct i); cbn [andb];
    change (DIMENSION_STRING_SEPARATOR_CHAR +:+ ?u) with (String ":"%char u);
    rewrite unsplit_char by done.
  - apply Hp.
  - rewrite unsplit_app.
    assert (∀ p q, unsplit "|"%char p
              (if truthy_path q then string_from_path q
               else string_from_path (Some [])) = true) as Hside.
    { intros p q. by destruct (truthy_path q). }
    rewrite Hside. cbn [andb].
    change (RANGE_CUT_SEPARATOR_CHAR +:+ ?u) with (String "-"%char u).
    rewrite unsplit_char by done. apply Hside.
  - apply unsplit_concat; [done|].
    intros prev' x (p & <- & _)%list_elem_of_In%in_map_iff. apply Hp.
Qed.

Lemma split_joined (sep : ascii) (parts : list string) (prev : option ascii) :
  sep ≠ backslash → parts ≠ [] → prev ≠ Some backslash →
  (∀ x p, x ∈ parts → unsplit sep p x = true) →
  (∀ x, x ∈ parts → ¬ ends_with_backslash x) →
  split_from sep prev (String.concat (String sep "") parts) = parts.
Proof.
  intros Hsep. revert prev.
  induction parts as [|x [|y parts] IH]; intros prev Hne Hprev Hun Hend; [done|..].
  - cbn [String.concat]. apply split_unsplit, Hun. by left.
  - rewrite concat_cons2, append_cons_l, append_nil_l.
    rewrite split_at_separator.
    + f_equal. apply IH; [done|congruence|..].
      * intros z p Hz. apply Hun. by right.
      * intros z Hz. apply Hend. by right.
    + apply Hun. by left.
    + apply final_not_backslash; [done|]. apply Hend. by left.
Qed.

Lemma mapM_Cut_str (cuts_ : list Cut) (strings : list string) :
  mapM Cut_str cuts_ = Ok strings →
  Forall2 (λ c t, Cut_str c = Ok t) cuts_ strings.
Proof.
  revert strings. induction cuts_ as [|c cuts_ IH]; intros strings.
  - intros [= <-]. constructor.
  - cbn [mapM]. unfold mbind, outcome_bind, Py.bind.
    destruct (Cut_str c) as [t|e] eqn:Hc; [|done].
    destruct (mapM Cut_str cuts_) as [ts|e]; [|done].
    intros [= <-]. constructor; [done|]. by apply IH.
Qed.

(** X11: the string of a cell with cuts splits at the cut separator back
    into the strings of its cuts, one piece for each cut and in order,
    as long as no cut's string ends in a backslash. *)
Theorem to_str_splits (self : Cell) (s : string) :
  cuts self ≠ [] →
  to_str self = Ok s →
  (∀ c t, c ∈ cuts self → Cut_str c = Ok t → ¬ ends_with_backslash t) →
  mapM Cut_str (cuts self) = Ok (CUT_STRING_SEPARATOR s).
Proof.
  unfold to_str, string_from_cuts, mbind, outcome_bind, Py.bind.
  intros Hne Hs Hend.
  destruct (mapM Cut_str (cuts self)) as [strings|e] eqn:Hm; [|done].
  apply mapM_Cut_str in Hm. injection Hs as <-. f_equal. symmetry.
  unfold CUT_STRING_SEPARATOR, split. apply split_joined; [done| |done|..].
  - intros ->. apply Forall2_nil_inv_r in Hm. done.
  - intros x p [i Hx]%list_elem_of_lookup.
    destruct (Forall2_lookup_r _ _ _ _ _ Hm Hx) as (c & _ & Hc).
    by eapply Cut_str_one_piece.
  - intros x [i Hx]%list_elem_of_lookup.
    destruct (Forall2_lookup_r _ _ _ _ _ Hm Hx) as (c & Hi & Hc).
    eapply Hend; [|done]. by eapply list_elem_of_lookup_2.
Qed.

Lemma to_str_splits_witness :
  mapM Cut_str [Samples.date_2004; Samples.hidden_set]
  = Ok (CUT_STRING_SEPARATOR "date:2004|!date:2004;2010").
Proof.
  apply (to_str_splits {| cuts := [Samples.date_2004; Samples.hidden_set] |}
           "date:2004|!date:2004;2010"); [done|reflexivity|].
  intros c t [->|[->|[]%elem_of_nil]%elem_of_cons]%elem_of_cons [= <-];
    discriminate.
Defined.

End CutProps.

(** ** More on cells *)

Module CellProps.
Import Cells Spec DictFacts CellFacts.

(** *** slice and multi_slice *)

Lemma py_index_dims_Some (d : dimension) (cs : list Cut) (i : nat) :
  py_index d (map Cut_dimension cs) = Some i →
  (Cut_dimension <$> cs) !! i = Some d.
Proof.
  intros (c0 & Hc0 & Hd & _)%py_index_Some.
  by rewrite list_lookup_fmap, Hc0, <- Hd.
Qed.

Lemma sliced_dims (cs : list Cut) (cut : Cut) :
  Cut_dimension <$> sliced cs cut
  = match py_index (Cut_dimension cut) (map Cut_dimension cs) with
    | Some _ => Cut_dimension <$> cs
    | None => (Cut_dimension <$> cs) ++ [Cut_dimension cut]
    end.
Proof.
  unfold sliced. destruct (py_index _ _) as [i|] eqn:Hi.
  - rewrite list_fmap_insert. by apply list_insert_id, py_index_dims_Some.
  - by rewrite fmap_app.
Qed.

Lemma sliced_NoDup (cs : list Cut) (cut : Cut) :
  NoDup (Cut_dimension <$> cs) → NoDup (Cut_dimension <$> sliced cs cut).
Proof.
  intros Hnd. rewrite sliced_dims.
  destruct (py_index _ _) as [i|] eqn:Hi; [done|].
  apply NoDup_app. split; [done|]. split; [|apply NoDup_singleton].
  intros d (c & -> & Hc)%list_elem_of_fmap [= Heq]%list_elem_of_singleton.
  by apply (py_index_None _ _ Hi c).
Qed.

Lemma cut_for_dimension_sliced (cs : list Cut) (cut : Cut) (d : dimension) :
  cut_for_dimension {| cuts := sliced cs cut |} d
  = if decide (Cut_dimension cut = d) then Some cut
    else cut_for_dimension {| cuts := cs |} d.
Proof.
  unfold cut_for_dimension, sliced. cbn [cuts].
  destruct (py_index _ _) as [i|] eqn:Hi.
  - apply py_index_Some in Hi as (c0 & Hc0 & Hd & Hfirst).
    assert (i < length cs) as Hlt by by eapply lookup_lt_Some.
    destruct (decide (Cut_dimension cut = d)) as [<-|Hne].
    + erewrite (proj2 (list_find_Some _ _ i cut)); [done|].
      split; [by apply list_lookup_insert_eq|]. split; [done|].
      intros j y Hj Hji. rewrite list_lookup_insert_ne in Hj by lia.
      by apply (Hfirst j).
    + destruct (list_find (λ c, Cut_dimension c = d) cs) as [[j y]|] eqn:Hf.
      * apply list_find_Some in Hf as (Hj & Hy & Hbefore).
        assert (j ≠ i) as Hji by (intros ->; congruence).
        erewrite (proj2 (list_find_Some _ _ j y)); [done|].
        split; [by rewrite list_lookup_insert_ne|]. split; [done|].
        intros k z Hk Hkj. destruct (decide (k = i)) as [->|Hki].
        -- rewrite list_lookup_insert_eq in Hk by done. by injection Hk as <-.
        -- rewrite list_lookup_insert_ne in Hk by done. by apply (Hbefore k).
      * apply list_find_None in Hf.
        erewrite (proj2 (list_find_None _ _)); [done|].
        apply Forall_insert; done.
  - pose proof (py_index_None _ _ Hi) as Habs.
    destruct (decide (Cut_dimension cut = d)) as [<-|Hne].
    + erewrite (proj2 (list_find_Some _ _ (length cs) cut)); [done|].
      split; [by apply list_lookup_middle|]. split; [done|].
      intros j y Hj Hlt. rewrite lookup_app_l in Hj by done.
      apply (Habs y). by eapply list_elem_of_lookup_2.
    + destruct (list_find (λ c, Cut_dimension c = d) cs) as [[j y]|] eqn:Hf.
      * by erewrite list_find_app_l.
      * apply list_find_None in Hf.
        erewrite (proj2 (list_find_None _ _)); [done|].
        apply Forall_app. split; [done|]. by apply Forall_singleton.
Qed.

Lemma sliced_twice (cs : list Cut) (c1 c2 : Cut) :
  Cut_dimension c1 = Cut_dimension c2 →
  sliced (sliced cs c1) c2 = sliced cs c2.
Proof.
  intros Hd. unfold sliced at 1 3. rewrite <- Hd.
  change (map Cut_dimension (sliced cs c1)) with (Cut_dimension <$> sliced cs c1).
  rewrite sliced_dims. unfold sliced.
  destruct (py_index (Cut_dimension c1) (map Cut_dimension cs)) as [i|] eqn:Hi.
  - change (Cut_dimension <$> cs) with (map Cut_dimension cs). rewrite Hi.
    apply list_insert_insert_eq.
  - assert (py_index (Cut_dimension c1)
              ((Cut_dimension <$> cs) ++ [Cut_dimension c1])
            = Some (length cs)) as ->.
    { unfold py_index.
      erewrite (proj2 (list_find_Some _ _ (length cs) (Cut_dimension c1))); [done|].
      split; [rewrite <- (length_fmap Cut_dimension cs); by apply list_lookup_middle|].
      split; [done|]. intros j y Hj Hlt.
      rewrite lookup_app_l in Hj by by rewrite length_fmap.
      apply list_lookup_fmap_Some in Hj as (c & -> & Hc).
      apply (py_index_None _ _ Hi c). by eapply list_elem_of_lookup_2. }
    rewrite insert_app_r_alt by lia. by rewrite Nat.sub_diag.
Qed.

Lemma heap_multi_slice (cuts_ : list Cut) (h : list (list Cut))
    (self : Heap.CellObj) (cs : list Cut) :
  h !! Heap.cuts_ref self = Some cs →
  ∃ self' h',
    Heap.multi_slice self cuts_ h = Ok (self', h')
    ∧ h' !! Heap.cuts_ref self' = Some (foldl sliced cs cuts_)
    ∧ (∀ r, r < length h → h' !! r = h !! r)
    ∧ (cuts_ = [] → self' = self ∧ h' = h)
    ∧ (cuts_ ≠ [] → (length h ≤ Heap.cuts_ref self')%nat).
Proof.
  revert h self cs. induction cuts_ as [|cut rest IH]; intros h self cs Hself.
  - exists self, h. by repeat split.
  - cbn [Heap.multi_slice foldl].
    unfold mbind, Heap.M_bind, Heap.and_then.
    rewrite (heap_slice h self cs cut Hself).
    set (n := sliced cs cut). set (h1 := (h ++ [n]) ++ [n]).
    assert (h1 !! S (length h) = Some n) as Hnew.
    { apply list_lookup_middle. rewrite length_app. cbn. lia. }
    destruct (IH h1 {| Heap.cuts_ref := S (length h) |} n Hnew)
      as (self' & h' & Hrun & Hres & Hold & Hnil & Hcons).
    exists self', h'. split; [done|]. split; [done|].
    assert (length h1 = S (S (length h))) as Hlen.
    { unfold h1. rewrite !length_app. cbn. lia. }
    split; [|split; [done|]].
    + intros r Hr. rewrite Hold by lia. unfold h1.
      rewrite <- (assoc_L (++)). by rewrite lookup_app_l.
    + intros _. destruct rest as [|c' rest].
      * destruct (Hnil eq_refl) as [-> _]. cbn. lia.
      * specialize (Hcons ltac:(done)). lia.
Qed.

Lemma foldl_sliced_NoDup (cuts_ cs : list Cut) :
  NoDup (Cut_dimension <$> cs) →
  NoDup (Cut_dimension <$> foldl sliced cs cuts_).
Proof.
  revert cs. induction cuts_ as [|cut rest IH]; intros cs Hnd; [done|].
  cbn [foldl]. by apply IH, sliced_NoDup.
Qed.

(** X12: slicing keeps at most one cut per dimension: when the dimensions
    of the receiver's cuts are distinct, so are those of the cell that
    [slice], or a chain of slices by [multi_slice], returns. *)
Theorem slice_keeps_dimensions_distinct (h : list (list Cut))
    (self : Heap.CellObj) (cs : list Cut) (cut : Cut) (cuts_ : list Cut) :
  h !! Heap.cuts_ref self = Some cs →
  NoDup (Cut_dimension <$> cs) →
  (∃ self' h' new,
      Heap.slice self cut h = Ok (self', h')
      ∧ h' !! Heap.cuts_ref self' = Some new
      ∧ NoDup (Cut_dimension <$> new))
  ∧ (∃ self' h' new,
      Heap.multi_slice self cuts_ h = Ok (self', h')
      ∧ h' !! Heap.cuts_ref self' = Some new
      ∧ NoDup (Cut_dimension <$> new)).
Proof.
  intros Hself Hnd. split.
  - eexists _, _, _. split; [by apply heap_slice|].
    split; [|by apply sliced_NoDup].
    apply list_lookup_middle. rewrite length_app. cbn. lia.
  - destruct (heap_multi_slice cuts_ h self cs Hself)
      as (self' & h' & Hrun & Hres & _).
    exists self', h', (foldl sliced cs cuts_).
    split; [done|]. split; [done|]. by apply foldl_sliced_NoDup.
Qed.

Lemma slice_keeps_dimensions_distinct_witness :
  (∃ self' h' new,
      Heap.slice {| Heap.cuts_ref := 0 |} Samples.date_2010
        [[Samples.class_5; Samples.date_2004]] = Ok (self', h')
      ∧ h' !! Heap.cuts_ref self' = Some new
      ∧ NoDup (Cut_dimension <$> new))
  ∧ (∃ self' h' new,
      Heap.multi_slice {| Heap.cuts_ref := 0 |}
        [Samples.date_2010; Samples.date_2004_1]
        [[Samples.class_5; Samples.date_2004]] = Ok (self', h')
      ∧ h' !! Heap.cuts_ref self' = Some new
      ∧ NoDup (Cut_dimension <$> new)).
Proof.
  apply (slice_keeps_dimensions_distinct _ _ [Samples.class_5; Samples.date_2004]);
    [reflexivity|].
  by apply (bool_decide_unpack _).
Defined.

Lemma last_for_cons (d : dimension) (c : Cut) (rest : list Cut) :
  last_for d (c :: rest)
  = match last_for d rest with
    | Some x => Some x
    | None => if decide (Cut_dimension c = d) then Some c else None
    end.
Proof.
  unfold last_for. rewrite filter_cons.
  destruct (decide (Cut_dimension c = d)); [|by destruct (last _)].
  apply last_cons.
Qed.

Lemma cut_for_dimension_foldl (cuts_ cs : list Cut) (d : dimension) :
  cut_for_dimension {| cuts := foldl sliced cs cuts_ |} d
  = match last_for d cuts_ with
    | Some c => Some c
    | None => cut_for_dimension {| cuts := cs |} d
    end.
Proof.
  revert cs. induction cuts_ as [|c rest IH]; intros cs; [done|].
  cbn [foldl]. rewrite IH, last_for_cons, cut_for_dimension_sliced.
  by destruct (last_for d rest), (decide (Cut_dimension c = d)).
Qed.

(** X13: after [multi_slice], the cut [cut_for_dimension] finds for a
    dimension is the last of the given cuts of that dimension, and the
    receiver's own cut when none was given; the receiver's list is left as
    it was, and with no cuts to apply the receiver itself is returned. *)
Theorem multi_slice_last_wins (h : list (list Cut)) (self : Heap.CellObj)
    (cs cuts_ : list Cut) :
  h !! Heap.cuts_ref self = Some cs →
  ∃ self' h' new,
    Heap.multi_slice self cuts_ h = Ok (self', h')
    ∧ h' !! Heap.cuts_ref self' = Some new
    ∧ h' !! Heap.cuts_ref self = Some cs
    ∧ (cuts_ = [] → self' = self ∧ h' = h)
    ∧ (cuts_ ≠ [] → Heap.cuts_ref self' ≠ Heap.cuts_ref self)
    ∧ ∀ d, cut_for_dimension {| cuts := new |} d
           = match last_for d cuts_ with
             | Some c => Some c
             | None => cut_for_dimension {| cuts := cs |} d
             end.
Proof.
  intros Hself.
  assert (Heap.cuts_ref self < length h) as Hlt by by eapply lookup_lt_Some.
  destruct (heap_multi_slice cuts_ h self cs Hself)
    as (self' & h' & Hrun & Hres & Hold & Hnil & Hcons).
  exists self', h', (foldl sliced cs cuts_).
  split; [done|]. split; [done|]. split; [by rewrite Hold|].
  split; [done|]. split.
  - intros Hne. specialize (Hcons Hne). lia.
  - intros d. apply cut_for_dimension_foldl.
Qed.

Lemma multi_slice_last_wins_witness :
  ∃ self' h' new,
    Heap.multi_slice {| Heap.cuts_ref := 0 |}
      [Samples.date_2010; Samples.date_2004_1]
      [[Samples.class_5; Samples.date_2004]] = Ok (self', h')
    ∧ h' !! Heap.cuts_ref self' = Some new
    ∧ h' !! 0 = Some [Samples.class_5; Samples.date_2004]
    ∧ cut_for_dimension {| cuts := new |} (DimName "date")
      = Some Samples.date_2004_1
    ∧ cut_for_dimension {| cuts := new |} (DimName "class")
      = Some Samples.class_5.
Proof.
  destruct (multi_slice_last_wins [[Samples.class_5; Samples.date_2004]]
              {| Heap.cuts_ref := 0 |} [Samples.class_5; Samples.date_2004]
              [Samples.date_2010; Samples.date_2004_1] eq_refl)
    as (self' & h' & new & Hrun & Hnew & Hself & _ & _ & Hfind).
  exists self', h', new. split; [exact Hrun|]. split; [exact Hnew|].
  split; [exact Hself|]. split; [exact (Hfind (DimName "date"))|].
  exact (Hfind (DimName "class")).
Defined.

(** X14: of two slices by cuts of one dimension the second wins: the cell
    they leave has the cuts of the cell that the second slice alone
    gives. *)
Theorem slice_twice (h : list (list Cut)) (self : Heap.CellObj)
    (cs : list Cut) (c1 c2 : Cut) :
  h !! Heap.cuts_ref self = Some cs →
  Cut_dimension c1 = Cut_dimension c2 →
  ∃ s12 h12 s2 h2 new,
    Heap.multi_slice self [c1; c2] h = Ok (s12, h12)
    ∧ Heap.slice self c2 h = Ok (s2, h2)
    ∧ h12 !! Heap.cuts_ref s12 = Some new
    ∧ h2 !! Heap.cuts_ref s2 = Some new.
Proof.
  intros Hself Hd.
  destruct (heap_multi_slice [c1; c2] h self cs Hself)
    as (s12 & h12 & Hrun & Hres & _).
  eexists s12, h12, _, _, _. split; [done|].
  split; [by apply heap_slice|]. split.
  - rewrite Hres. cbn [foldl]. by rewrite sliced_twice.
  - apply list_lookup_middle. rewrite length_app. cbn. lia.
Qed.

Lemma slice_twice_witness :
  ∃ s12 h12 s2 h2 new,
    Heap.multi_slice {| Heap.cuts_ref := 0 |}
      [Samples.date_2010; Samples.date_2004_1]
      [[Samples.class_5; Samples.date_2004]] = Ok (s12, h12)
    ∧ Heap.slice {| Heap.cuts_ref := 0 |} Samples.date_2004_1
        [[Samples.class_5; Samples.date_2004]] = Ok (s2, h2)
    ∧ h12 !! Heap.cuts_ref s12 = Some new
    ∧ h2 !! Heap.cuts_ref s2 = Some new.
Proof.
  apply (slice_twice _ _ [Samples.class_5; Samples.date_2004]); reflexivity.
Defined.

(** *** point_slice *)

Lemma dimension_cuts_exclude (self : Cell) (d : dimension) :
  dimension_cuts self d true = filter (λ c, Cut_dimension c ≠ d) (cuts self).
Proof.
  apply list_filter_iff. intros c. split; [by intros [[_ ?]|[? _]]|by left].
Qed.

Lemma dimension_cuts_include (self : Cell) (d : dimension) :
  dimension_cuts self d false = filter (λ c, Cut_dimension c = d) (cuts self).
Proof.
  apply list_filter_iff. intros c. split; [by intros [[? _]|[_ ?]]|by right].
Qed.

Lemma filter_none {A} (P : A → Prop) `{∀ x, Decision (P x)} (l : list A) :
  Forall (λ x, ¬ P x) l → filter P l = [].
Proof.
  induction 1 as [|x l Hx _ IH]; [done|]. by rewrite filter_cons_False.
Qed.

Lemma filter_all {A} (P : A → Prop) `{∀ x, Decision (P x)} (l : list A) :
  Forall P l → filter P l = l.
Proof.
  induction 1 as [|x l Hx _ IH]; [done|]. by rewrite filter_cons_True, IH.
Qed.

Lemma Forall_filter_self {A} (P : A → Prop) `{∀ x, Decision (P x)} (l : list A) :
  Forall P (filter P l).
Proof. apply Forall_forall. by intros x [? _]%list_elem_of_filter. Qed.

(** X15: [point_slice] leaves exactly one cut of the dimension, the new
    point cut, or none when the path is empty or [None]; the cuts of other
    dimensions are as they were; and of two point slices of one dimension
    the second alone decides the result. *)
Theorem point_slice_replaces (self : Cell) (d : dimension)
    (p q : option HierarchyPath) :
  dimension_cuts (point_slice self d p) d false
  = (if truthy_path p then [PointCut d (default [] p) None false false] else [])
  ∧ (∀ d', d' ≠ d →
       dimension_cuts (point_slice self d p) d' false
       = dimension_cuts self d' false)
  ∧ point_slice (point_slice self d p) d q = point_slice self d q.
Proof.
  assert (∀ d', filter (λ c, Cut_dimension c = d')
                  (filter (λ c, Cut_dimension c ≠ d) (cuts self))
                = if decide (d' = d) then []
                  else filter (λ c, Cut_dimension c = d') (cuts self)) as Hff.
  { intros d'. rewrite list_filter_filter. destruct (decide (d' = d)) as [->|Hne].
    - apply filter_none, Forall_forall. by intros c _ [? ?].
    - apply list_filter_iff. intros c.
      split; [by intros [? _]|intros <-; by split]. }
  split; [|split].
  - rewrite dimension_cuts_include. unfold point_slice.
    rewrite dimension_cuts_exclude.
    destruct (truthy_path p); cbn [cuts].
    + rewrite filter_app, Hff, decide_True by done.
      by rewrite filter_cons_True.
    + by rewrite Hff, decide_True.
  - intros d' Hne. rewrite !dimension_cuts_include. unfold point_slice.
    rewrite dimension_cuts_exclude.
    destruct (truthy_path p); cbn [cuts].
    + rewrite filter_app, Hff, decide_False by done.
      rewrite filter_cons_False by (cbn; congruence). by rewrite app_nil_r.
    + by rewrite Hff, decide_False.
  - unfold point_slice at 1 3. f_equal.
    assert (dimension_cuts (point_slice self d p) d true
            = dimension_cuts self d true) as ->; [|done].
    rewrite !dimension_cuts_exclude. unfold point_slice.
    rewrite dimension_cuts_exclude.
    destruct (truthy_path p); cbn [cuts].
    + rewrite filter_app, filter_cons_False by (cbn; intros Hn; by apply Hn).
      rewrite app_nil_r. apply filter_all, Forall_filter_self.
    + apply filter_all, Forall_filter_self.
Qed.

Lemma point_slice_replaces_witness :
  dimension_cuts
    (point_slice {| cuts := [Samples.date_2004; Samples.class_5] |}
       (DimName "date") (Some [Some "2010"]))
    (DimName "class") false
  = dimension_cuts {| cuts := [Samples.date_2004; Samples.class_5] |}
      (DimName "class") false.
Proof.
  apply (proj1 (proj2 (point_slice_replaces
                         {| cuts := [Samples.date_2004; Samples.class_5] |}
                         (DimName "date") (Some [Some "2010"]) None))).
  discriminate.
Defined.

(** *** drilldown and rollup_dim *)

Lemma elem_of_cuts_other_than (i : nat) (l : list Cut) (c : Cut) :
  c ∈ cuts_other_than i l ↔ ∃ j, j ≠ i ∧ l !! j = Some c.
Proof.
  unfold cuts_other_than. rewrite elem_of_app, !list_elem_of_lookup. split.
  - intros [[j Hj]|[j Hj]].
    + apply lookup_take_Some in Hj as [Hj Hlt]. exists j. split; [lia|done].
    + rewrite lookup_drop in Hj. exists (S i + j). split; [lia|done].
  - intros (j & Hne & Hj). destruct (decide (j < i)) as [Hlt|Hge].
    + left. exists j. by apply lookup_take_Some.
    + right. exists (j - S i). rewrite lookup_drop.
      by replace (S i + (j - S i)) with j by lia.
Qed.

Lemma length_cuts_other_than (i : nat) (l : list Cut) :
  i < length l → S (length (cuts_other_than i l)) = length l.
Proof.
  intros Hlt. unfold cuts_other_than.
  rewrite length_app, length_take, length_drop. lia.
Qed.

Lemma cuts_other_than_last (l : list Cut) (c : Cut) :
  cuts_other_than (length l) (l ++ [c]) = l.
Proof.
  unfold cuts_other_than. rewrite take_app_length.
  rewrite drop_ge by (rewrite length_app; cbn; lia). apply app_nil_r.
Qed.

Lemma find_point_cut_last (others : list Cut) (d : dimension)
    (p : HierarchyPath) (h : option hierarchy_ref) (inv hid : bool) :
  (∀ c, c ∈ others → isinstance_PointCut c = true → Cut_dimension c ≠ d) →
  find_point_cut {| cuts := others ++ [PointCut d p h inv hid] |} d
  = Some (length others, PointCut d p h inv hid).
Proof.
  intros Hothers. unfold find_point_cut. cbn [cuts].
  apply list_find_Some. split; [by apply list_lookup_middle|].
  split; [done|]. intros j c Hj Hlt [Hp Hd].
  rewrite lookup_app_l in Hj by done.
  apply (Hothers c); [by eapply list_elem_of_lookup_2|done..].
Qed.

(** X16: drilling down into a dimension and rolling it up again gives a
    cell equal to the original, where the hierarchy's roll-up drops the
    last element of the path and the cell has at most one point cut for
    the dimension, with a path and not inverted. *)
Theorem drilldown_rollup_dim (md : Metadata) (self : Cell) (d : dimension)
    (v : string) (h : option hierarchy_ref) (hier : Hierarchy) :
  dim_hierarchy md d h = Ok hier →
  (∀ path, Hierarchy_rollup md hier (path ++ [Some v]) None = Ok path) →
  (∀ i j ci cj,
      cuts self !! i = Some ci → cuts self !! j = Some cj →
      isinstance_PointCut ci = true → Cut_dimension ci = d →
      isinstance_PointCut cj = true → Cut_dimension cj = d → i = j) →
  (∀ p h0 inv hid,
      PointCut d p h0 inv hid ∈ cuts self → p ≠ [] ∧ inv = false) →
  ∃ c1 c2,
    drilldown self d v h = Ok c1
    ∧ rollup_dim md c1 d None h = Ok c2
    ∧ Cell_eq c2 self = true ∧ Cell_eq self c2 = true.
Proof.
  intros Hhier Hroll Hone Hpath. destruct self as [cs]. cbn [cuts] in *.
  unfold drilldown, mbind, outcome_bind, Py.bind.
  destruct (find_point_cut {| cuts := cs |} d) as [[i c0]|] eqn:Hf.
  - unfold find_point_cut in Hf. cbn [cuts] in Hf.
    apply list_find_Some in Hf as (Hi & [Hp Hd] & _).
    destruct c0 as [d0 p h0 inv hid| |]; try discriminate Hp.
    cbn in Hd. subst d0. cbn [Cut_path].
    assert (PointCut d p h0 inv hid ∈ cs) as Hin
      by by eapply list_elem_of_lookup_2.
    destruct (Hpath _ _ _ _ Hin) as [Hne ->].
    assert (i < length cs) as Hlt by by eapply lookup_lt_Some.
    set (others := cuts_other_than i cs).
    assert (∀ c, c ∈ others → isinstance_PointCut c = true →
                 Cut_dimension c ≠ d) as Hothers.
    { intros c (j & Hji & Hj)%elem_of_cuts_other_than Hcp Hcd.
      apply Hji. by apply (Hone j i c (PointCut d p h0 false hid)). }
    eexists _, _. split; [reflexivity|]. unfold rollup_dim.
    rewrite find_point_cut_last by done. cbn [cuts].
    rewrite cuts_other_than_last.
    unfold mbind, outcome_bind, Py.bind. rewrite Hhier. cbn [Cut_path].
    rewrite Hroll. destruct p as [|e p]; [done|]. cbn [truthy_path].
    split; [reflexivity|].
    set (pc := PointCut d (e :: p) h false false).
    assert (bare pc = bare (PointCut d (e :: p) h0 false hid)) as Hbare by done.
    split; apply Cell_eq_true; cbn [cuts].
    + split.
      * rewrite length_app. cbn. rewrite <- (length_cuts_other_than i cs) by done.
        fold others. lia.
      * intros c [Hc| ->%list_elem_of_singleton]%elem_of_app.
        -- apply elem_of_cuts_other_than in Hc as (j & _ & Hj).
           apply list_elem_of_fmap_2. by eapply list_elem_of_lookup_2.
        -- rewrite Hbare. by apply list_elem_of_fmap_2.
    + split.
      * rewrite length_app. cbn. rewrite <- (length_cuts_other_than i cs) by done.
        fold others. lia.
      * intros c [j Hj]%list_elem_of_lookup. rewrite fmap_app.
        apply elem_of_app. destruct (decide (j = i)) as [->|Hji].
        -- right. rewrite Hi in Hj. injection Hj as <-. rewrite <- Hbare.
           apply list_elem_of_singleton. done.
        -- left. apply list_elem_of_fmap_2, elem_of_cuts_other_than. eauto.
  - unfold find_point_cut in Hf. cbn [cuts] in Hf.
    pose proof (proj1 (list_find_None _ _) Hf) as Hnone.
    eexists _, _. split; [reflexivity|]. unfold rollup_dim.
    rewrite find_point_cut_last.
    2:{ intros c Hc Hp Hd.
        by apply (proj1 (Forall_forall _ _) Hnone c Hc). }
    cbn [cuts]. rewrite cuts_other_than_last.
    unfold mbind, outcome_bind, Py.bind. rewrite Hhier. cbn [Cut_path].
    rewrite (Hroll []). cbn [truthy_path].
    split; [reflexivity|].
    split; apply (Cell_eq_refl {| cuts := cs |}).
Qed.

Lemma drilldown_rollup_dim_witness :
  ∃ c1 c2,
    drilldown {| cuts := [Samples.date_obj_2004] |} (DimObj Samples.date_dim)
      "1" None = Ok c1
    ∧ rollup_dim Samples.md c1 (DimObj Samples.date_dim) None None = Ok c2
    ∧ Cell_eq c2 {| cuts := [Samples.date_obj_2004] |} = true
    ∧ Cell_eq {| cuts := [Samples.date_obj_2004] |} c2 = true.
Proof.
  apply (drilldown_rollup_dim Samples.md {| cuts := [Samples.date_obj_2004] |}
           (DimObj Samples.date_dim) "1" None Samples.ymd).
  - reflexivity.
  - intros path. cbn. by rewrite removelast_last.
  - intros [|i] [|j] ci cj Hi Hj; try done.
  - intros p h0 inv hid Hin. apply list_elem_of_singleton in Hin.
    injection Hin as -> _ -> _. by split.
Defined.

(** *** level_depths *)

Lemma adict_get_set_eq {V} (k : dimension) (v : V) (d : list (dimension * V)) :
  adict_get k (adict_set k v d) = Some v.
Proof.
  induction d as [|[k' v'] d IH]; cbn; [by rewrite bool_decide_eq_true_2|].
  destruct (bool_decide (k' = k)) eqn:Hk; cbn; by rewrite Hk.
Qed.

Lemma adict_get_set_ne {V} (k k' : dimension) (v : V) (d : list (dimension * V)) :
  k' ≠ k → adict_get k' (adict_set k v d) = adict_get k' d.
Proof.
  intros Hne. induction d as [|[k0 v0] d IH]; cbn.
  - by rewrite bool_decide_eq_false_2.
  - destruct (bool_decide (k0 = k)) eqn:Hk; cbn; [|by rewrite IH].
    apply bool_decide_eq_true in Hk as ->.
    by rewrite !bool_decide_eq_false_2.
Qed.

Lemma level_depths_step_Ok (ds ds' : list (dimension * nat)) (c : Cut) :
  level_depths_step ds c = Ok ds' →
  ∃ k, level_depth c = Ok (Some k)
       ∧ ds' = adict_set (Cut_dimension c)
                 (Nat.max k (default 0 (adict_get (Cut_dimension c) ds))) ds.
Proof.
  unfold level_depths_step, mbind, outcome_bind, Py.bind.
  destruct (level_depth c) as [[k|]|]; [|done..]. intros [= <-]. eauto.
Qed.

Lemma level_depths_step_entry (ds ds' : list (dimension * nat))
    (pre : list Cut) (c : Cut) :
  (∀ d, depth_entry pre d (adict_get d ds)) →
  level_depths_step ds c = Ok ds' →
  ∀ d, depth_entry (pre ++ [c]) d (adict_get d ds').
Proof.
  intros Hinv (k & Hk & ->)%level_depths_step_Ok d.
  destruct (decide (d = Cut_dimension c)) as [->|Hne].
  - rewrite adict_get_set_eq. specialize (Hinv (Cut_dimension c)).
    destruct (adict_get (Cut_dimension c) ds) as [n|];
      cbn [default from_option id depth_entry] in *.
    + destruct Hinv as [(c0 & Hc0 & Hd0 & Hn0) Hbound]. split.
      * destruct (Nat.max_spec k n) as [[Hlt ->]|[Hle ->]].
        -- exists c0. by rewrite elem_of_app; auto.
        -- exists c. rewrite elem_of_app, list_elem_of_singleton. auto.
      * intros c' [Hc'| ->%list_elem_of_singleton]%elem_of_app Hd'.
        -- destruct (Hbound c' Hc' Hd') as (k' & Hk' & Hle).
           exists k'. split; [done|lia].
        -- exists k. split; [done|lia].
    + rewrite Nat.max_0_r. split.
      * exists c. rewrite elem_of_app, list_elem_of_singleton. auto.
      * intros c' [Hc'| ->%list_elem_of_singleton]%elem_of_app Hd'.
        -- by destruct (Hinv c' Hc').
        -- exists k. split; [done|lia].
  - rewrite adict_get_set_ne by done. specialize (Hinv d).
    destruct (adict_get d ds) as [n|]; cbn [depth_entry] in *.
    + destruct Hinv as [(c0 & Hc0 & Hd0 & Hn0) Hbound]. split.
      * exists c0. by rewrite elem_of_app; auto.
      * intros c' [Hc'| ->%list_elem_of_singleton]%elem_of_app Hd';
          [by apply Hbound|done].
    + intros c' [Hc'| ->%list_elem_of_singleton]%elem_of_app;
        [by apply Hinv|done].
Qed.

Lemma for_each_level_depths (l pre : list Cut) (ds ds' : list (dimension * nat)) :
  (∀ d, depth_entry pre d (adict_get d ds)) →
  for_each level_depths_step ds l = Ok ds' →
  ∀ d, depth_entry (pre ++ l) d (adict_get d ds').
Proof.
  revert pre ds. induction l as [|c l IH]; intros pre ds Hinv; cbn [for_each].
  - intros [= <-]. by rewrite app_nil_r.
  - unfold mbind, outcome_bind, Py.bind.
    destruct (level_depths_step ds c) as [ds1|] eqn:Hstep; [|done].
    intros Hfor d.
    replace (pre ++ c :: l) with ((pre ++ [c]) ++ l)
      by by rewrite <- (assoc_L (++)).
    eapply IH; [|done]. by eapply level_depths_step_entry.
Qed.

Lemma for_each_level_depths_ok (l : list Cut) (ds : list (dimension * nat)) :
  is_ok (for_each level_depths_step ds l) = true ↔ Forall has_depth l.
Proof.
  revert ds. induction l as [|c l IH]; intros ds; cbn [for_each].
  - by split.
  - unfold mbind, outcome_bind, Py.bind. rewrite Forall_cons.
    destruct (level_depths_step ds c) as [ds1|e] eqn:Hstep.
    + rewrite IH. apply level_depths_step_Ok in Hstep as (k & Hk & _).
      split; [intros ?; split; [by exists k|done]|by intros [_ ?]].
    + split; [done|]. intros [[k Hk] _].
      unfold level_depths_step, mbind, outcome_bind, Py.bind in Hstep.
      by rewrite Hk in Hstep.
Qed.

(** X17: [level_depths] returns exactly when every cut has a depth -- no
    set cut without paths, no range cut with both ends empty -- and the
    dictionary it returns has an entry for the dimensions of the cell's
    cuts and no other, each the greatest depth among the cuts of the
    dimension. *)
Theorem level_depths_greatest (self : Cell) :
  (is_ok (level_depths self) = true ↔ Forall has_depth (cuts self))
  ∧ ∀ depths, level_depths self = Ok depths →
      ∀ d, depth_entry (cuts self) d (adict_get d depths).
Proof.
  split; [apply for_each_level_depths_ok|].
  intros depths Hrun d.
  apply (for_each_level_depths (cuts self) [] [] depths); [|done].
  intros d' c Hc. by apply elem_of_nil in Hc.
Qed.

Lemma level_depths_greatest_witness :
  depth_entry [Samples.date_2004; Samples.class_5; Samples.date_2004_1]
    (DimName "date") (Some 2).
Proof.
  apply (proj2 (level_depths_greatest
                  {| cuts := [Samples.date_2004; Samples.class_5;
                              Samples.date_2004_1] |})
               [(DimName "date", 2); (DimName "class", 1)] eq_refl
               (DimName "date")).
Defined.

(** *** deepest_levels *)

Lemma deepest_levels_step_item (md : Metadata) (include_empty : bool)
    (item0 : option level_item) (acc : list level_item) (cut : Cut)
    (item : level_item) :
  include_empty = true ∨ nonzero_depth cut →
  deepest_item md cut item →
  deepest_levels_step md include_empty (item0, acc) cut
  = Ok (Some item, acc ++ [item]).
Proof.
  intros Hcase (hier & depth & Hhier & Hdepth & Hitem).
  unfold deepest_levels_step, mbind, outcome_bind, Py.bind.
  rewrite Hdepth, Hhier.
  destruct depth as [[|n]|].
  - destruct Hcase as [->|[n Hn]]; [by subst|congruence].
  - destruct Hitem as (level & -> & ->). done.
  - destruct Hcase as [->|[n Hn]]; [by subst|congruence].
Qed.

Lemma for_each_deepest_items (md : Metadata) (include_empty : bool)
    (l : list Cut) (items : list level_item)
    (st : option level_item * list level_item) :
  include_empty = true ∨ Forall nonzero_depth l →
  Forall2 (deepest_item md) l items →
  ∃ it, for_each (deepest_levels_step md include_empty) st l
        = Ok (it, st.2 ++ items).
Proof.
  intros Hcase Hitems. revert st.
  induction Hitems as [|cut item l items Hitem _ IH]; intros [item0 acc].
  - exists item0. cbn. by rewrite app_nil_r.
  - assert (include_empty = true ∨ nonzero_depth cut) as Hcut.
    { destruct Hcase as [?|Hall%Forall_cons_1]; [by left|right; apply Hall]. }
    assert (include_empty = true ∨ Forall nonzero_depth l) as Hl.
    { destruct Hcase as [?|Hall%Forall_cons_1]; [by left|right; apply Hall]. }
    cbn [for_each]. rewrite (deepest_levels_step_item _ _ _ _ _ item) by done.
    unfold mbind, outcome_bind, Py.bind.
    destruct (IH Hl (Some item, acc ++ [item])) as [it Hit].
    exists it. rewrite Hit. cbn. by rewrite <- (assoc_L (++)).
Qed.

(** X18: with [include_empty] true, or when every cut has a path,
    [deepest_levels] returns a list exactly when it is, cut by cut and in
    order, the dimension, its hierarchy, and the level at the depth of
    the cut ([None] at depth zero); it raises when a hierarchy lookup or a
    depth raises or a hierarchy has no level that deep. *)
Theorem deepest_levels_one_triple_per_cut (md : Metadata) (self : Cell)
    (include_empty : bool) (items : list level_item) :
  include_empty = true ∨ Forall nonzero_depth (cuts self) →
  deepest_levels md self include_empty = Ok items
  ↔ Forall2 (deepest_item md) (cuts self) items.
Proof.
  intros Hcase. split; [by apply deepest_levels_one_per_cut|].
  intros Hitems. unfold deepest_levels, mbind, outcome_bind, Py.bind.
  destruct (for_each_deepest_items md include_empty (cuts self) items
              (None, []) Hcase Hitems) as [it ->].
  done.
Qed.

Lemma deepest_levels_one_triple_per_cut_witness :
  Forall2 (deepest_item Samples.md)
    [Samples.date_obj_2004; Samples.item_obj_all]
    [(DimObj Samples.date_dim, Samples.ymd, Some Samples.year);
     (DimObj Samples.item_dim, Samples.item_hier, None)].
Proof.
  apply (deepest_levels_one_triple_per_cut Samples.md
           {| cuts := [Samples.date_obj_2004; Samples.item_obj_all] |} true);
    [by left|reflexivity].
Defined.

(** *** Equality of cells *)

(** X19: when the receiver repeats no cut, two cells are equal exactly
    when their cuts, hierarchy and hidden flag apart, are the same up to
    order. *)
Theorem Cell_eq_without_repeats (a b : Cell) :
  NoDup (bare <$> cuts a) →
  Cell_eq a b = true ↔ bare <$> cuts a ≡ₚ bare <$> cuts b.
Proof. apply Cell_eq_NoDup. Qed.

Lemma Cell_eq_without_repeats_witness :
  Cell_eq {| cuts := [Samples.date_2004; Samples.class_5] |}
          {| cuts := [Samples.class_5; Samples.date_2004] |} = true.
Proof.
  apply Cell_eq_without_repeats.
  - cbn. apply NoDup_cons.
    split; [by intros [=]%list_elem_of_singleton|apply NoDup_singleton].
  - apply Permutation_swap.
Defined.

(** *** rollup *)

Lemma elem_of_odict_set_keys (k : dimension) (v : Cut)
    (d : list (dimension * Cut)) (x : dimension) :
  x ∈ (odict_set k v d).*1 ↔ x = k ∨ x ∈ d.*1.
Proof.
  induction d as [|[k' v'] d IH]; cbn.
  - rewrite list_elem_of_singleton. split; [by left|].
    intros [?|Hn]; [done|]. by apply elem_of_nil in Hn.
  - case_bool_decide as Hk; cbn; rewrite !elem_of_cons.
    + subst k'. tauto.
    + rewrite IH. tauto.
Qed.

Lemma elem_of_cuts_by_dimension_keys (cs : list Cut) (x : dimension) :
  x ∈ (cuts_by_dimension {| cuts := cs |}).*1
  ↔ ∃ c, c ∈ cs ∧ Cut_dimension c = x.
Proof.
  unfold cuts_by_dimension. cbn [cuts].
  assert (∀ d0 : list (dimension * Cut),
            x ∈ (foldl (λ d cut, odict_set (Cut_dimension cut) cut d) d0 cs).*1
            ↔ x ∈ d0.*1 ∨ ∃ c, c ∈ cs ∧ Cut_dimension c = x) as Hgen.
  { induction cs as [|c cs IH]; intros d0; cbn [foldl].
    - split; [by left|]. intros [?|(c & Hc & _)]; [done|].
      by apply elem_of_nil in Hc.
    - rewrite IH, elem_of_odict_set_keys. split.
      + intros [[->|?]|(c' & Hc' & Hd)]; [right; exists c|by left|right; exists c'];
          by rewrite elem_of_cons; auto.
      + intros [?|(c' & [->|Hc']%elem_of_cons & Hd)]; [by left; right|by left; left|].
        right. by exists c'. }
  rewrite Hgen. split; [|by right].
  intros [Hn|?]; [|done]. by apply elem_of_nil in Hn.
Qed.

Lemma odict_get_None (k : dimension) (d : list (dimension * Cut)) :
  odict_get k d = None ↔ k ∉ d.*1.
Proof.
  unfold odict_get. rewrite fmap_None, list_find_None, Forall_forall.
  rewrite list_elem_of_fmap. split.
  - intros H ([k' v] & -> & Hin). by apply (H _ Hin).
  - intros H [k' v] Hin <-. apply H. by exists (k', v).
Qed.

Lemma for_each_rollup_list_absent (md : Metadata)
    (cuts_ : list (dimension * Cut)) (l : list string) (acc : list Cut) :
  (∀ n, n ∈ l → odict_get (DimName n) cuts_ = None) →
  for_each (rollup_list_step md cuts_) acc l = Ok acc.
Proof.
  induction l as [|n l IH]; intros Habs; [done|]. cbn [for_each].
  assert (rollup_list_step md cuts_ acc n = Ok acc) as ->.
  { unfold rollup_list_step. by rewrite (Habs n) by by left. }
  unfold mbind, outcome_bind, Py.bind. apply IH.
  intros n' Hn'. apply Habs. by right.
Qed.

(** X20: a roll-up by a list of dimension names returns only when the cell
    has no cut for any of the names, and what it returns is then the empty
    cell: the cuts of the other dimensions are not carried over. *)
Theorem rollup_list_returns (md : Metadata) (self : Cell) (l : list string)
    (cell : Cell) :
  rollup md self (RollupList l) = Ok cell
  ↔ cell = {| cuts := [] |}
    ∧ ∀ n c, n ∈ l → c ∈ cuts self → Cut_dimension c ≠ DimName n.
Proof.
  assert (∀ n, odict_get (DimName n) (cuts_by_dimension self) = None
               ↔ ∀ c, c ∈ cuts self → Cut_dimension c ≠ DimName n) as Habs.
  { intros n. rewrite odict_get_None. destruct self as [cs].
    rewrite elem_of_cuts_by_dimension_keys. cbn [cuts]. split.
    - intros H c Hc Hd. apply H. by exists c.
    - intros H (c & Hc & Hd). by apply (H c). }
  split.
  - intros Hrun. destruct (rollup_list_only_skips md self l cell Hrun) as [Hnil Hl].
    split; [destruct cell; cbn in Hnil; by subst|].
    intros n c Hn. by apply Habs, Hl.
  - intros [-> Hl]. unfold rollup.
    rewrite for_each_rollup_list_absent; [done|].
    intros n Hn. apply Habs. intros c. by apply Hl.
Qed.

Lemma rollup_list_returns_witness :
  rollup Samples.md {| cuts := [Samples.class_5] |} (RollupList ["date"])
  = Ok {| cuts := [] |}.
Proof.
  apply rollup_list_returns. split; [reflexivity|].
  intros n c Hn%list_elem_of_singleton Hc%list_elem_of_singleton. by subst.
Defined.

(** *** Conjunction and the public cell *)

(** X21: in the conjunction of two cells the cut found for a dimension is
    the first cell's when it has one, and the second cell's otherwise; and
    the two orders of a conjunction are equal cells. *)
Theorem Cell_and_conjunction (self other : Cell) :
  (∀ dim, cut_for_dimension (Cell_and self other) dim
          = match cut_for_dimension self dim with
            | Some cut => Some cut
            | None => cut_for_dimension other dim
            end)
  ∧ Cell_eq (Cell_and self other) (Cell_and other self) = true.
Proof.
  split.
  - intros dim. unfold cut_for_dimension, Cell_and. cbn [cuts].
    destruct (list_find _ (cuts self)) as [[i cut]|] eqn:Hfind.
    + by rewrite (list_find_app_l _ _ _ _ _ Hfind).
    + rewrite list_find_app_r by done. cbn.
      by destruct (list_find _ (cuts other)) as [[j cut]|].
  - apply Cell_eq_true. unfold Cell_and. cbn [cuts].
    rewrite !length_app. split; [lia|].
    intros c Hc. apply list_elem_of_fmap_2.
    apply elem_of_app. apply elem_of_app in Hc. tauto.
Qed.

(** X22: the public cell has no hidden cut, taking it twice changes
    nothing more, and it is equal to the cell exactly when the cell has no
    hidden cut -- although equality of cuts does not look at the flag. *)
Theorem public_cell_equal (self : Cell) :
  Forall (λ cut, Cut_hidden cut = false) (cuts (public_cell self))
  ∧ public_cell (public_cell self) = public_cell self
  ∧ (Cell_eq (public_cell self) self = true
     ↔ Forall (λ cut, Cut_hidden cut = false) (cuts self)).
Proof.
  unfold public_cell. cbn [cuts]. split; [apply Forall_filter_self|].
  split; [f_equal; apply filter_all, Forall_filter_self|]. split.
  - intros [Hlen _]%Cell_eq_true. cbn [cuts] in Hlen.
    apply Forall_forall. intros cut Hcut.
    destruct (Cut_hidden cut) eqn:Hhid; [|done].
    pose proof (length_filter_lt (λ cut, Cut_hidden cut = false)
                  (cuts self) cut Hcut) as Hlt.
    cbv beta in Hlt. specialize (Hlt ltac:(congruence)). lia.
  - intros Hall. rewrite filter_all by done.
    destruct self. apply Cell_eq_refl.
Qed.

End CellProps.

(** ** More on the browser *)

Module BrowserProps.
Import Cells Browser Spec BrowserFacts.

(** *** Records *)

Lemma foldl_insert_notin (kvs : list (string * value)) (m : record) (l : string) :
  l ∉ kvs.*1 →
  foldl (λ d kv, <[kv.1 := kv.2]> d) m kvs !! l = m !! l.
Proof.
  revert m. induction kvs as [|[k v] kvs IH]; intros m Hl; [done|].
  rewrite fmap_cons in Hl. apply not_elem_of_cons in Hl as [Hne Hl].
  cbn [foldl fst snd] in *. rewrite IH by done.
  apply lookup_insert_ne. congruence.
Qed.

Lemma zip_keys_subset (labels_ : list string) (r : row) (l : string) :
  l ∈ (zip labels_ r).*1 → l ∈ labels_.
Proof.
  revert r. induction labels_ as [|l0 ls IH]; intros [|v vs]; cbn;
    try (intros H; by apply elem_of_nil in H).
  intros [->|H]%elem_of_cons; [by left|right; by eapply IH].
Qed.

Lemma foldl_zip_lookup (labels_ : list string) (r : row) (m : record)
    (i : nat) (l : string) :
  NoDup labels_ → labels_ !! i = Some l →
  foldl (λ d kv, <[kv.1 := kv.2]> d) m (zip labels_ r) !! l
  = match r !! i with Some v => Some v | None => m !! l end.
Proof.
  unfold row. revert r m i.
  induction labels_ as [|l0 ls IH]; intros r m i Hnd Hi; [done|].
  apply NoDup_cons in Hnd as [Hl0 Hnd].
  destruct r as [|v vs]; [by destruct i|]. cbn [zip zip_with foldl].
  destruct i as [|i]; simpl in Hi.
  - injection Hi as ->. rewrite foldl_insert_notin.
    + cbn [fst snd]. apply lookup_insert_eq.
    + intros Hin%zip_keys_subset. done.
  - rewrite (IH vs _ i) by done. change ((v :: vs) !! S i) with (vs !! i).
    destruct (vs !! i); [done|].
    cbn [fst snd]. apply lookup_insert_ne. intros ->.
    apply Hl0. by eapply list_elem_of_lookup_2.
Qed.

(** X23: in the record made of a row, each of the distinct labels has the
    value in its column, a label past the end of the row has none, and so
    has every key that is not a label. *)
Theorem dict_zip_lookup (labels_ : list string) (r : row) :
  NoDup labels_ →
  (∀ i l, labels_ !! i = Some l → dict_zip labels_ r !! l = r !! i)
  ∧ (∀ l, l ∉ labels_ → dict_zip labels_ r !! l = None).
Proof.
  intros Hnd. split.
  - intros i l Hi. unfold dict_zip. rewrite (foldl_zip_lookup _ _ _ i) by done.
    by destruct (r !! i).
  - intros l Hl. unfold dict_zip. rewrite foldl_insert_notin; [done|].
    intros Hin%zip_keys_subset. done.
Qed.

Lemma dict_zip_lookup_witness :
  dict_zip ["customer"; "amount_sum"] [Str "a"; Int 15] !! "amount_sum"
  = [Str "a"; Int 15] !! 1.
Proof.
  apply (proj1 (dict_zip_lookup ["customer"; "amount_sum"] [Str "a"; Int 15]
                  ltac:(by apply (bool_decide_unpack _))) 1 "amount_sum").
  reflexivity.
Defined.

(** *** The iterator without null exclusion *)

Lemma pop_rows_plain (self : ResultIterator) (b : list row) :
  truthy_path (exclude_if_null self) = false →
  pop_rows self b
  = match b with
    | [] => (Ok None, [])
    | r :: b' => (Ok (Some (dict_zip (labels self) r)), b')
    end.
Proof. intros Hex. destruct b; [done|]. cbn. unfold skip_row. by rewrite Hex. Qed.

Lemma resume_plain (self : ResultIterator) (c : cursor) (r : row) (b : list row) :
  truthy_path (exclude_if_null self) = false →
  resume self c (r :: b)
  = (Yield (dict_zip (labels self) r), with_state self c b).
Proof.
  intros Hex. destruct c; cbn [resume]; by rewrite pop_rows_plain.
Qed.

Lemma next_plain (self : ResultIterator) :
  truthy_path (exclude_if_null self) = false →
  match rows_ahead self with
  | [] => ∃ self', next self = (Stop, self')
  | r :: rest =>
      ∃ self', next self = (Yield (dict_zip (labels self) r), self')
               ∧ rows_ahead self' = rest
               ∧ labels self' = labels self
               ∧ exclude_if_null self' = exclude_if_null self
  end.
Proof.
  intros Hex. unfold next, rows_ahead.
  destruct self as [c b ls ex]. cbn [result batch labels exclude_if_null] in *.
  destruct b as [|r b].
  - destruct c as [|many c]; [by eexists|].
    destruct many as [|r many]; [by eexists|].
    cbn [fetched app resume pop_rows]. rewrite resume_plain by done.
    by eexists.
  - cbn [app]. rewrite resume_plain by done. by eexists.
Qed.

Lemma collect_plain (fuel : nat) (self : ResultIterator) :
  truthy_path (exclude_if_null self) = false →
  (length (rows_ahead self) < fuel)%nat →
  collect fuel self = (map (dict_zip (labels self)) (rows_ahead self), None).
Proof.
  revert self. induction fuel as [|fuel IH]; intros self Hex Hlen; [lia|].
  cbn [collect]. pose proof (next_plain self Hex) as Hnext.
  destruct (rows_ahead self) as [|r rest] eqn:Hrows.
  - destruct Hnext as [self' ->]. done.
  - destruct Hnext as (self' & -> & Hrest & Hlabels & Hex').
    rewrite IH; [|congruence|rewrite Hrest; cbn in Hlen; lia].
    by rewrite Hrest, Hlabels.
Qed.

Lemma length_fetched (c : cursor) :
  (length (fetched c) ≤ length (concat c))%nat.
Proof.
  induction c as [|many c IH]; [done|]. destruct many as [|r many]; cbn; [lia|].
  rewrite !length_app. destruct c; cbn in *; lia.
Qed.

(** X24: an iterator on which no null exclusion is set yields one record
    per row, in order and without an exception: the rows left in its batch,
    then those of the batches its cursor gives up to the first empty
    one. *)
Theorem to_list_without_exclusion (self : ResultIterator) :
  truthy_path (exclude_if_null self) = false →
  to_list self = (map (dict_zip (labels self)) (rows_ahead self), None).
Proof.
  intros Hex. unfold to_list. apply collect_plain; [done|].
  unfold rows_ahead, rows_left. rewrite length_app.
  pose proof (length_fetched (result self)). lia.
Qed.

Lemma to_list_without_exclusion_witness :
  to_list (ResultIterator_init [[[Str "a"; Null]]; [[Str "b"; Int 15]]; []; [[Str "c"; Int 1]]]
             ["customer"; "amount_sum"])
  = (map (dict_zip ["customer"; "amount_sum"])
         [[Str "a"; Null]; [Str "b"; Int 15]], None).
Proof.
  apply (to_list_without_exclusion
           (ResultIterator_init
              [[[Str "a"; Null]]; [[Str "b"; Int 15]]; []; [[Str "c"; Int 1]]]
              ["customer"; "amount_sum"])).
  reflexivity.
Defined.

(** *** aggregate_column *)

(** X25: for an aggregate whose function name is ASCII,
    [aggregate_column] returns a column exactly when the aggregate has no
    expression, its function name, in lower case, is one for which
    [get_aggregate_function] returns a function, the read of
    [self.base_columns] gives a value, and that function returns the column
    from the aggregate, the base columns and the coalesce flag. *)
Theorem aggregate_column_returns {Column BaseColumns : Type}
    (get_aggregate_function :
       string → outcome (option (Aggregate → BaseColumns → bool → outcome Column)))
    (self_base_columns : outcome BaseColumns)
    (aggregate : Aggregate) (coalesce : bool) (col : Column) :
  (∀ f, function aggregate = Some f → ascii_only f = true) →
  aggregate_column get_aggregate_function self_base_columns aggregate coalesce
  = Ok col
  ↔ truthy_str (expression aggregate) = false
    ∧ ∃ f builder base_columns,
        function aggregate = Some f ∧ f ≠ ""
        ∧ get_aggregate_function (py_lower f) = Ok (Some builder)
        ∧ self_base_columns = Ok base_columns
        ∧ builder aggregate base_columns coalesce = Ok col.
Proof.
  intros _. unfold aggregate_column, mbind, outcome_bind, Py.bind.
  destruct (truthy_str (expression aggregate)) eqn:He; cbn [orb negb].
  { split; [done|by intros [? _]]. }
  destruct (function aggregate) as [f|] eqn:Hf; cbn [truthy_str].
  2: { split; [done|]. by intros [_ (f' & b & bc & [=] & _)]. }
  destruct (String.eqb_spec f "") as [->|Hne]; cbn [negb].
  { split; [done|]. by intros [_ (f' & b & bc & [= <-] & ? & _)]. }
  destruct (get_aggregate_function (py_lower f)) as [[builder|]|e] eqn:Hr.
  - destruct self_base_columns as [bc|e] eqn:Hbc.
    + split; [intros Hb; split; [done|]; by exists f, builder, bc|].
      intros [_ (f' & b & bc' & [= <-] & _ & Hr' & Hbc' & Hb)]. congruence.
    + split; [done|].
      by intros [_ (f' & b & bc' & [= <-] & _ & _ & [=] & _)].
  - split; [done|].
    intros [_ (f' & b & bc' & [= <-] & _ & Hr' & _)]. congruence.
  - split; [done|].
    intros [_ (f' & b & bc' & [= <-] & _ & Hr' & _)]. congruence.
Qed.

Lemma aggregate_column_returns_witness :
  aggregate_column
    (λ n, Ok (if String.eqb n "sum"
              then Some (λ a (columns : list string) (_ : bool),
                           Ok (aggregate_name a :: columns))
              else None))
    (Ok ["amount"])
    {| aggregate_name := "amount_sum"; function := Some "SUM"; expression := None |}
    false
  = Ok ["amount_sum"; "amount"].
Proof.
  apply aggregate_column_returns.
  - by intros f [= <-].
  - split; [reflexivity|]. eexists "SUM", _, _. repeat split. discriminate.
Defined.

(** *** provide_aggregate *)

Section Queries.
Context {Statement Drilldown Order Levels Attribute : Type}.
Implicit Types (ext : @External Statement Drilldown Order Levels Attribute).











Ltac unfold_db :=
  unfold mbind, mret, DB_bind, DB_ret, db_bind, db_ret, lift, execute in *.



End Queries.



End BrowserProps.
